(** * Dead-code engine of the code-health optimizer

    A shallow embedding of [DeadCodeAnalyzer] (src/analyzers/deadCodeAnalyzer.ts)
    and of [findFiles] (src/utils/astParser.ts), and the properties of the
    reachability engine proved over it.

    The TypeScript compiler API is the engine's environment.  Its syntax
    trees are modelled as the data the engine reads from them ([Node]); the
    type checker, the program factory, [glob] and [path.relative] are taken
    as parameters, exactly where the source calls them. *)

From Stdlib Require Import QArith Ascii.
From stdpp Require Import base option list strings gmap.

Local Open Scope string_scope.
Local Open Scope list_scope.
Local Open Scope nat_scope.

#[local] Set Warnings "-clear-no-such-hyp".

(** ** Syntax trees, as the engine reads them *)

Module ts.

(** The [ts.SyntaxKind] values the examples need; every other kind is
    [OtherKind n]. *)
Inductive SyntaxKind :=
| Identifier
| ExportKeyword
| DefaultKeyword
| AsyncKeyword
| StaticKeyword
| Decorator
| CallExpression
| PropertyAccessExpression
| ArrowFunction
| FunctionExpression
| Block
| ExpressionStatement
| VariableStatement
| FunctionDeclaration
| ClassDeclaration
| MethodDeclaration
| SourceFileKind
| OtherKind (n : nat).

#[global] Instance SyntaxKind_eq_dec : EqDecision SyntaxKind.
Proof. solve_decision. Defined.

(** A [ts.Node].  [getStart] and [getEnd] are the positions returned by
    [node.getStart()] and [node.getEnd()], [getText] is [node.getText()];
    [name], [expression], [modifiers] and [decorators] are the properties
    of these names ([None] when the property is absent or [undefined]);
    [children] lists the nodes [ts.forEachChild] calls back on, in
    order. *)
#[local] Unset Elimination Schemes.
Inductive Node : Type := mkNode {
  kind : SyntaxKind;
  getStart : nat;
  getEnd : nat;
  getText : string;
  name : option Node;
  expression : option Node;
  modifiers : option (list Node);
  decorators : option (list Node);
  children : list Node
}.
#[local] Set Elimination Schemes.

Record Symbol := mkSymbol {
  symbolId : nat;
  escapedName : string
}.

Record TypeChecker := mkTypeChecker {
  getSymbolAtLocation : Node -> option Symbol;
  getFullyQualifiedName : Symbol -> string
}.

Record LineAndCharacter := mkLineAndCharacter {
  line : nat;
  character : nat
}.

(** A [ts.SourceFile]: [sfNode] is the file seen as the root node of its
    tree. *)
Record SourceFile := mkSourceFile {
  fileName : string;
  isDeclarationFile : bool;
  getLineAndCharacterOfPosition : nat -> LineAndCharacter;
  sfNode : Node
}.

Record Program := mkProgram {
  getSourceFiles : list SourceFile;
  getTypeChecker : TypeChecker
}.

Definition isCallExpression (n : Node) : bool :=
  bool_decide (kind n = CallExpression).
Definition isFunctionDeclaration (n : Node) : bool :=
  bool_decide (kind n = FunctionDeclaration).
Definition isMethodDeclaration (n : Node) : bool :=
  bool_decide (kind n = MethodDeclaration).

(** Induction on trees through [children], the only field the two
    traversals descend into. *)
Section NodeInd.
Variable P : Node -> Prop.
Hypothesis step : forall n, Forall P (children n) -> P n.

Fixpoint Node_children_ind (n : Node) : P n :=
  step n
    (match n as n0 return Forall P (children n0) with
     | mkNode _ _ _ _ _ _ _ _ cs =>
         (fix go (l : list Node) : Forall P l :=
            match l with
            | [] => @Stdlib.Lists.List.Forall_nil _ P
            | c :: l' =>
                @Stdlib.Lists.List.Forall_cons _ P c l' (Node_children_ind c) (go l')
            end) cs
     end).
End NodeInd.

End ts.

Import ts.

(** ** JavaScript strings *)

(** [hay.includes(needle)]. *)
Fixpoint includes (hay needle : string) : bool :=
  String.prefix needle hay ||
  match hay with
  | EmptyString => false
  | String _ rest => includes rest needle
  end.

(** ** The analyzer *)

Record DeadCodeFinding := mkFinding {
  filePath : string;
  functionName : string;
  lineStart : nat;
  lineEnd : nat;
  confidence : Q;
  reason : string
}.

(** [Map<string, Set<string>>]: callee name to the set of caller names. *)
Abbreviation CallGraph := (gmap string (gset string)).

(** The fields of a [DeadCodeAnalyzer] that outlive a call.  [program] and
    [checker] are assigned by [analyze] before anything reads them, so the
    methods below take them as arguments. *)
Record DeadCodeAnalyzer := mkAnalyzer {
  callGraph : CallGraph;
  repoPath : string
}.

(** [new DeadCodeAnalyzer(repoPath)]. *)
Definition newDeadCodeAnalyzer (repo : string) : DeadCodeAnalyzer :=
  {| callGraph := ∅; repoPath := repo |}.

(** [private isExported(node)]: some modifier of the node itself is the
    [export] keyword. *)
Definition isExported (node : Node) : bool :=
  match modifiers node with
  | Some ms => existsb (fun m => bool_decide (kind m = ExportKeyword)) ms
  | None => false
  end.

(** [private getFullSymbolName(symbol)]. *)
Definition getFullSymbolName (checker : TypeChecker) (symbol : Symbol) : string :=
  getFullyQualifiedName checker symbol.

(** [private getContainingFunction(node)].  The loop follows [current.parent]
    from the node itself; [chain] is that sequence of nodes, the node first
    and the root of the tree last. *)
Fixpoint getContainingFunction (checker : TypeChecker) (chain : list Node)
  : option Symbol :=
  match chain with
  | [] => None
  | current :: parents =>
      if isFunctionDeclaration current || isMethodDeclaration current then
        match name current with
        | Some nm => getSymbolAtLocation checker nm
        | None => getContainingFunction checker parents
        end
      else getContainingFunction checker parents
  end.

(** Lines 113-116 of [buildCallGraph]: create the callee's set when the key
    is new, then add the caller to the set stored under the key.  The
    non-null assertion on [get] is the [None] branch, which
    [addEdge_defined] shows is never taken. *)
Definition addEdge (calleeName callerName : string) (g : CallGraph) : CallGraph :=
  let g1 := if bool_decide (is_Some (g !! calleeName)) then g
            else <[calleeName := ∅]> g in
  match g1 !! calleeName with
  | Some callers => <[calleeName := callers ∪ {[callerName]}]> g1
  | None => g1
  end.

(** The body of the build pass's [visit] at one node, before it descends:
    [parents] is the chain of [node.parent] links. *)
Definition recordCall (checker : TypeChecker) (parents : list Node) (node : Node)
    (this : DeadCodeAnalyzer) : DeadCodeAnalyzer :=
  if isCallExpression node then
    let calleeSymbol := expression node ≫= getSymbolAtLocation checker in
    let callerSymbol := getContainingFunction checker (node :: parents) in
    match callerSymbol, calleeSymbol with
    | Some caller, Some callee =>
        let callerName := getFullSymbolName checker caller in
        let calleeName := getFullSymbolName checker callee in
        {| callGraph := addEdge calleeName callerName (callGraph this);
           repoPath := repoPath this |}
    | _, _ => this
    end
  else this.

(** The build pass's [visit]. *)
Fixpoint visitCalls (checker : TypeChecker) (parents : list Node) (node : Node)
    (this : DeadCodeAnalyzer) : DeadCodeAnalyzer :=
  fold_left (fun acc child => visitCalls checker (node :: parents) child acc)
            (children node) (recordCall checker parents node this).

(** [private buildCallGraph()]. *)
Definition buildCallGraph (program : Program) (this : DeadCodeAnalyzer)
  : DeadCodeAnalyzer :=
  fold_left
    (fun acc sourceFile =>
       if isDeclarationFile sourceFile then acc
       else visitCalls (getTypeChecker program) [] (sfNode sourceFile) acc)
    (getSourceFiles program) this.

(** The state of the classification pass of [analyze]: the analyzer object
    and the local array [findings] the pass pushes onto. *)
Record Run := mkRun {
  self : DeadCodeAnalyzer;
  findings : list DeadCodeFinding
}.

(** [!references || references.size === 0]. *)
Definition neverCalled (references : option (gset string)) : bool :=
  match references with
  | None => true
  | Some callers => bool_decide (size callers = 0)
  end.

Definition isTestFile (sourceFile : SourceFile) : bool :=
  includes (fileName sourceFile) ".test." ||
  includes (fileName sourceFile) ".spec.".

(** ['decorators' in node && Array.isArray(node.decorators) &&
    node.decorators.length > 0]. *)
Definition hasDecorators (node : Node) : bool :=
  match decorators node with
  | Some ds => bool_decide (0 < length ds)
  | None => false
  end.

(** [node.name?.getText() || 'anonymous']. *)
Definition nameText (node : Node) : string :=
  match name node with
  | Some nm => if bool_decide (getText nm = "") then "anonymous" else getText nm
  | None => "anonymous"
  end.

Definition deadReason : string :=
  "Function has no internal references and is not exported".

Section Engine.

(** [glob(pattern, {cwd, absolute, ignore, nodir})] of the glob package,
    as a function of the pattern and of [cwd]; the other options are the
    same at every call. *)
Variable glob : string -> string -> list string.
(** [ts.createProgram(files, options)], with the fixed options of
    [analyze]. *)
Variable createProgram : list string -> Program.
(** [path.relative(from, to)]. *)
Variable relative : string -> string -> string.

(** [[...new Set(allFiles)]]: the first occurrence of each path, in
    order. *)
Fixpoint uniq (seen : list string) (allFiles : list string) : list string :=
  match allFiles with
  | [] => []
  | f :: rest =>
      if bool_decide (f ∈ seen) then uniq seen rest
      else f :: uniq (f :: seen) rest
  end.

(** [findFiles(repoPath, patterns)] of utils/astParser. *)
Definition findFiles (repo : string) (patterns : list string) : list string :=
  uniq [] (flat_map (fun pattern => glob pattern repo) patterns).

Definition filePatterns : list string :=
  ["**/*.ts"; "**/*.tsx"; "**/*.js"; "**/*.jsx"].

(** The object literal pushed at lines 74-86. *)
Definition findingFor (repo : string) (sourceFile : SourceFile) (node : Node)
  : DeadCodeFinding :=
  {| filePath := relative repo (fileName sourceFile);
     functionName := nameText node;
     lineStart :=
       line (getLineAndCharacterOfPosition sourceFile (getStart node)) + 1;
     lineEnd :=
       line (getLineAndCharacterOfPosition sourceFile (getEnd node)) + 1;
     confidence := (9 # 10)%Q;
     reason := deadReason |}.

(** Lines 58-88: what the classification pass does at a declaration whose
    symbol resolved. *)
Definition reportDeclaration (checker : TypeChecker) (sourceFile : SourceFile)
    (node : Node) (symbol : Symbol) (st : Run) : Run :=
  let fullName := getFullSymbolName checker symbol in
  let references := callGraph (self st) !! fullName in
  if neverCalled references then
    if negb (isExported node) && negb (isTestFile sourceFile)
       && negb (hasDecorators node)
    then {| self := self st;
            findings := findings st
                        ++ [findingFor (repoPath (self st)) sourceFile node] |}
    else st
  else st.

(** The classification pass's [visit].  A function or method declaration
    without a name, or whose name has no symbol, returns before
    [ts.forEachChild]: its subtree is not visited. *)
Fixpoint visitDecls (checker : TypeChecker) (sourceFile : SourceFile)
    (node : Node) (st : Run) : Run :=
  let descend st' :=
    fold_left (fun acc child => visitDecls checker sourceFile child acc)
              (children node) st' in
  if isFunctionDeclaration node || isMethodDeclaration node then
    match name node ≫= getSymbolAtLocation checker with
    | None => st
    | Some symbol =>
        descend (reportDeclaration checker sourceFile node symbol st)
    end
  else descend st.

(** Lines 48-94: the loop over the program's source files. *)
Definition findUnreferenced (program : Program) (st : Run) : Run :=
  fold_left
    (fun acc sourceFile =>
       if isDeclarationFile sourceFile then acc
       else visitDecls (getTypeChecker program) sourceFile
              (sfNode sourceFile) acc)
    (getSourceFiles program) st.

(** [async analyze()]: the findings returned and the analyzer object
    after the call. *)
Definition analyze (this : DeadCodeAnalyzer)
  : list DeadCodeFinding * DeadCodeAnalyzer :=
  let files := findFiles (repoPath this) filePatterns in
  if bool_decide (length files = 0) then ([], this)
  else
    let program := createProgram files in
    let this1 := buildCallGraph program this in
    let st := findUnreferenced program {| self := this1; findings := [] |} in
    (findings st, self st).

End Engine.

(** ** The two traversals as lists *)

(** The nodes the build pass visits below [node], each with its chain of
    parents, in the order of the visit. *)
Fixpoint walk (parents : list Node) (node : Node) : list (list Node * Node) :=
  (parents, node) :: flat_map (walk (node :: parents)) (children node).

(** The edge (callee name, caller name) a visited node contributes, if any. *)
Definition callEdge (checker : TypeChecker) (site : list Node * Node)
  : option (string * string) :=
  if isCallExpression site.2 then
    match getContainingFunction checker (site.2 :: site.1),
          expression site.2 ≫= getSymbolAtLocation checker with
    | Some caller, Some callee =>
        Some (getFullSymbolName checker callee, getFullSymbolName checker caller)
    | _, _ => None
    end
  else None.

(** Every node of the program's own source files, with its parents. *)
Definition sites (program : Program) : list (list Node * Node) :=
  flat_map (fun sourceFile =>
              if isDeclarationFile sourceFile then []
              else walk [] (sfNode sourceFile))
           (getSourceFiles program).

Definition callEdges (program : Program) : list (string * string) :=
  omap (callEdge (getTypeChecker program)) (sites program).

Definition addEdges (edges : list (string * string)) (g : CallGraph) : CallGraph :=
  fold_left (fun acc e => addEdge e.1 e.2 acc) edges g.

(** A declaration the classification pass finds: a function or method
    declaration whose name has a symbol. *)
Record Declaration := mkDeclaration {
  declFile : SourceFile;
  declNode : Node;
  declSymbol : Symbol
}.

(** The declarations the classification pass reaches below [node], in the
    order of the visit. *)
Fixpoint declarationsIn (checker : TypeChecker) (sourceFile : SourceFile)
    (node : Node) : list Declaration :=
  let below := flat_map (declarationsIn checker sourceFile) (children node) in
  if isFunctionDeclaration node || isMethodDeclaration node then
    match name node ≫= getSymbolAtLocation checker with
    | None => []
    | Some symbol => mkDeclaration sourceFile node symbol :: below
    end
  else below.

Definition declarations (program : Program) : list Declaration :=
  flat_map (fun sourceFile =>
              if isDeclarationFile sourceFile then []
              else declarationsIn (getTypeChecker program) sourceFile
                     (sfNode sourceFile))
           (getSourceFiles program).

Definition qualifiedName (checker : TypeChecker) (d : Declaration) : string :=
  getFullSymbolName checker (declSymbol d).

(** ** The classification law, in the words of the specification *)

(** The callers the graph holds for a name: none when the key is absent. *)
Definition callersOf (g : CallGraph) (q : string) : gset string :=
  default ∅ (g !! q).

(** A root: exported, in a test file, or annotated. *)
Definition IsRoot (d : Declaration) : Prop :=
  isExported (declNode d) = true ∨ isTestFile (declFile d) = true
  ∨ hasDecorators (declNode d) = true.

Definition NoIncomingEdge (g : CallGraph) (q : string) : Prop :=
  callersOf g q = ∅.

Definition Dead (checker : TypeChecker) (g : CallGraph) (d : Declaration) : Prop :=
  ¬ IsRoot d ∧ NoIncomingEdge g (qualifiedName checker d).

#[global] Instance IsRoot_dec d : Decision (IsRoot d).
Proof. unfold IsRoot. apply _. Defined.

#[global] Instance NoIncomingEdge_dec g q : Decision (NoIncomingEdge g q).
Proof. unfold NoIncomingEdge. apply _. Defined.

#[global] Instance Dead_dec checker g d : Decision (Dead checker g d).
Proof. unfold Dead. apply _. Defined.

(** An export marker on the declaration or on a node that contains it. *)
Definition ExportMarked (parents : list Node) (node : Node) : Prop :=
  isExported node = true ∨ ∃ a, a ∈ parents ∧ isExported a = true.

(** The finding of a declaration, and the findings of the dead ones among
    a list of declarations, in order. *)
Definition findingOf (relative : string -> string -> string) (repo : string)
    (d : Declaration) : DeadCodeFinding :=
  findingFor relative repo (declFile d) (declNode d).

Definition deadFindings (relative : string -> string -> string)
    (checker : TypeChecker) (this : DeadCodeAnalyzer) (ds : list Declaration)
  : list DeadCodeFinding :=
  findingOf relative (repoPath this) <$> filter (Dead checker (callGraph this)) ds.

(** The program a run creates, and the call graph it classifies against. *)
Definition programOfRun (glob : string -> string -> list string)
    (createProgram : list string -> Program) (this : DeadCodeAnalyzer) : Program :=
  createProgram (findFiles glob (repoPath this) filePatterns).

Definition graphOfRun (glob : string -> string -> list string)
    (createProgram : list string -> Program) (this : DeadCodeAnalyzer) : CallGraph :=
  callGraph (buildCallGraph (programOfRun glob createProgram this) this).

(** ** Small programs *)

Module Examples.

(** A checker that resolves an identifier to the symbol of its text, and
    names a symbol by that text. *)
Definition checker : TypeChecker :=
  {| getSymbolAtLocation n :=
       if bool_decide (kind n = Identifier)
       then Some (mkSymbol 0 (getText n)) else None;
     getFullyQualifiedName := escapedName |}.

(** Line and column of a position in a text, both counted from 0. *)
Fixpoint lineAndCharacter (text : string) (position : nat) (l c : nat)
  : LineAndCharacter :=
  match position, text with
  | S p, String a rest =>
      if bool_decide (a = "010"%char) then lineAndCharacter rest p (S l) 0
      else lineAndCharacter rest p l (S c)
  | _, _ => mkLineAndCharacter l c
  end.

Definition sourceFile (path text : string) (root : Node) : SourceFile :=
  {| fileName := path;
     isDeclarationFile := false;
     getLineAndCharacterOfPosition p := lineAndCharacter text p 0 0;
     sfNode := root |}.

(** [path.relative] on a path below the directory. *)
Definition relative (from to : string) : string :=
  if String.prefix (from +:+ "/") to
  then String.substring (String.length from + 1)
         (String.length to - String.length from - 1) to
  else to.

Definition leaf (k : SyntaxKind) (p : nat) (s : string) : Node :=
  mkNode k p (p + String.length s) s None None None None [].

Definition ident : nat -> string -> Node := leaf Identifier.

Definition block (p e : nat) (s : string) (statements : list Node) : Node :=
  mkNode Block p e s None None None None statements.

Definition callOf (p e : nat) (s : string) (callee : Node) : Node :=
  mkNode CallExpression p e s None (Some callee) None None [callee].

Definition statement (p e : nat) (s : string) (e0 : Node) : Node :=
  mkNode ExpressionStatement p e s None None None None [e0].

Definition functionLike (k : SyntaxKind) (p e : nat) (s : string)
    (mods : option (list Node)) (nm : Node) (body : Node) : Node :=
  mkNode k p e s (Some nm) None mods None (default [] mods ++ [nm; body]).

Definition fileNode (e : nat) (s : string) (statements : list Node) : Node :=
  mkNode SourceFileKind 0 e s None None None None statements.

Definition programOf (files : list SourceFile) : Program :=
  {| getSourceFiles := files; getTypeChecker := checker |}.

Definition globOf (files : list string) (pattern cwd : string) : list string :=
  if bool_decide (pattern = "**/*.ts") then files else [].

(** [function helper() {}] followed by the module-scope call
    [helper();]. *)
Definition appText : string :=
  "function helper() {}" +:+ String "010" "helper();".

Definition helperDecl : Node :=
  functionLike FunctionDeclaration 0 20 "function helper() {}" None
    (ident 9 "helper") (block 18 20 "{}" []).

Definition helperCall : Node := callOf 21 29 "helper()" (ident 21 "helper").

Definition helperStatement : Node := statement 21 30 "helper();" helperCall.

Definition appRoot : Node := fileNode 30 appText [helperDecl; helperStatement].

Definition appFile : SourceFile := sourceFile "/repo/src/app.ts" appText appRoot.

Definition appProgram : Program := programOf [appFile].

(** [export class Service {], [  run() {}], [}]: a method of an exported
    class that nothing calls. *)
Definition serviceText : string :=
  "export class Service {" +:+ String "010" "  run() {}"
    +:+ String "010" "}".

Definition runMethod : Node :=
  functionLike MethodDeclaration 25 33 "run() {}" None
    (ident 25 "run") (block 31 33 "{}" []).

Definition serviceClass : Node :=
  let exportKw := leaf ExportKeyword 0 "export" in
  mkNode ClassDeclaration 0 35 serviceText (Some (ident 13 "Service")) None
    (Some [exportKw]) None [exportKw; ident 13 "Service"; runMethod].

Definition serviceRoot : Node := fileNode 35 serviceText [serviceClass].

Definition serviceFile : SourceFile :=
  sourceFile "/repo/src/service.ts" serviceText serviceRoot.

Definition serviceProgram : Program := programOf [serviceFile].

(** [function loop() { loop(); }]: a function whose only caller is
    itself. *)
Definition loopText : string := "function loop() { loop(); }".

Definition loopCall : Node := callOf 18 24 "loop()" (ident 18 "loop").

Definition loopBody : Node :=
  block 16 27 "{ loop(); }" [statement 18 25 "loop();" loopCall].

Definition loopDecl : Node :=
  functionLike FunctionDeclaration 0 27 loopText None (ident 9 "loop") loopBody.

Definition loopRoot : Node := fileNode 27 loopText [loopDecl].

Definition loopFile : SourceFile := sourceFile "/repo/src/loop.ts" loopText loopRoot.

Definition loopProgram : Program := programOf [loopFile].

(** [function twice() { helper(); helper(); }] and [function helper() {}]:
    two calls from one caller to one callee. *)
Definition twiceText : string :=
  "function twice() { helper(); helper(); }" +:+ String "010"
    "function helper() {}".

Definition twiceDecl : Node :=
  functionLike FunctionDeclaration 0 40
    "function twice() { helper(); helper(); }" None (ident 9 "twice")
    (block 17 40 "{ helper(); helper(); }"
       [statement 19 28 "helper();" (callOf 19 27 "helper()" (ident 19 "helper"));
        statement 29 38 "helper();" (callOf 29 37 "helper()" (ident 29 "helper"))]).

Definition twiceHelper : Node :=
  functionLike FunctionDeclaration 41 61 "function helper() {}" None
    (ident 50 "helper") (block 59 61 "{}" []).

Definition twiceRoot : Node := fileNode 61 twiceText [twiceDecl; twiceHelper].

Definition twiceFile : SourceFile :=
  sourceFile "/repo/src/twice.ts" twiceText twiceRoot.

Definition twiceProgram : Program := programOf [twiceFile].

(** [export function main() {}]. *)
Definition mainDecl : Node :=
  functionLike FunctionDeclaration 0 25 "export function main() {}"
    (Some [leaf ExportKeyword 0 "export"]) (ident 16 "main")
    (block 23 25 "{}" []).

(** A method [handler() {}] whose [decorators] property holds one
    decorator. *)
Definition handlerMethod : Node :=
  mkNode MethodDeclaration 0 19 "@Get() handler() {}" (Some (ident 7 "handler"))
    None None (Some [leaf Decorator 0 "@Get()"])
    [leaf Decorator 0 "@Get()"; ident 7 "handler"; block 17 19 "{}" []].

(** [class Api {], [  @Get() list() {}], [}], with the decorator among the
    modifiers of the method and no [decorators] property. *)
Definition apiText : string :=
  "class Api {" +:+ String "010" "  @Get() list() {}" +:+ String "010" "}".

Definition listMethod : Node :=
  functionLike MethodDeclaration 14 30 "@Get() list() {}"
    (Some [leaf Decorator 14 "@Get()"]) (ident 21 "list")
    (block 28 30 "{}" []).

Definition apiClass : Node :=
  mkNode ClassDeclaration 0 32 apiText (Some (ident 6 "Api")) None None None
    [ident 6 "Api"; listMethod].

Definition apiFile : SourceFile :=
  sourceFile "/repo/src/api.ts" apiText (fileNode 32 apiText [apiClass]).

Definition apiProgram : Program := programOf [apiFile].

Definition analyzer : DeadCodeAnalyzer := newDeadCodeAnalyzer "/repo".

(** A run of a fresh analyzer on a repository whose only file is [path],
    parsed as [program]. *)
Definition runOn (path : string) (program : Program)
  : list DeadCodeFinding * DeadCodeAnalyzer :=
  analyze (globOf [path]) (fun _ => program) relative analyzer.

Definition findingAt (path name : string) (first last : nat) : DeadCodeFinding :=
  {| filePath := path; functionName := name; lineStart := first;
     lineEnd := last; confidence := (9 # 10)%Q;
     reason := "Function has no internal references and is not exported" |}.

End Examples.

(** ** JavaScript numbers and strings used by the other analyzers *)

Module js.

(** A JavaScript number: a finite double, which is a rational, or one of
    the three special values. *)
Inductive number :=
| Finite (q : Q)
| NaN
| PosInfinity
| NegInfinity.

(** [x > y]. *)
Definition gt (x y : number) : bool :=
  match x, y with
  | Finite a, Finite b => negb (Qle_bool a b)
  | Finite _, NegInfinity => true
  | PosInfinity, Finite _ => true
  | PosInfinity, NegInfinity => true
  | _, _ => false
  end.

(** [s.split(sep)] for a separator of one character: the list is never
    empty. *)
Fixpoint split (sep : ascii) (s : string) : list string :=
  match s with
  | EmptyString => [EmptyString]
  | String c rest =>
      if bool_decide (c = sep) then EmptyString :: split sep rest
      else match split sep rest with
           | part :: parts => String c part :: parts
           | [] => [String c EmptyString]
           end
  end.

(** [parts.join(sep)]. *)
Fixpoint join (sep : ascii) (parts : list string) : string :=
  match parts with
  | [] => EmptyString
  | [part] => part
  | part :: rest => part +:+ String sep (join sep rest)
  end.

(** [s.startsWith(prefix)]. *)
Definition startsWith (s prefix : string) : bool := String.prefix prefix s.

End js.

(** ** The duplicate analyzer: the comparison loop of [analyze] *)

Module Duplicate.

Record CodeBlock := mkCodeBlock {
  file : string;
  code : string;
  type : string;
  name : option string
}.

Record DuplicateFinding := mkDuplicateFinding {
  file1 : string;
  file2 : string;
  similarity : js.number;
  codeBlock1 : string;
  codeBlock2 : string;
  recommendation : string
}.

(** What [checkSimilarity] resolves to. *)
Record Similarity := mkSimilarity {
  score : js.number;
  advice : string
}.

(** The state of the loop: the array [findings], and the pairs of
    positions for which [checkSimilarity] has been called. *)
Record Loop := mkLoop {
  findings : list DuplicateFinding;
  calls : list (nat * nat)
}.

Section Analyzer.

Variable glob : string -> string -> list string.
(** [private extractCodeBlocks(files)]: a scan of the files' contents with
    two regular expressions, taken as a function of the files. *)
Variable extractCodeBlocks : list string -> list CodeBlock.
(** [private checkSimilarity(block1, block2)], a request to a language
    model: the outcome of the call made for the blocks at positions [i] and
    [j], [None] when the call throws. *)
Variable checkSimilarity : nat -> nat -> CodeBlock -> CodeBlock -> option Similarity.

(** The body of the inner loop, lines 190-214. *)
Definition compare (i j : nat) (block1 block2 : CodeBlock) (st : Loop) : Loop :=
  if bool_decide (file block1 = file block2) then st
  else
    match checkSimilarity i j block1 block2 with
    | Some result =>
        if js.gt (score result) (js.Finite (3 # 4))
        then {| findings := findings st ++
                  [{| file1 := file block1;
                      file2 := file block2;
                      similarity := score result;
                      codeBlock1 := code block1;
                      codeBlock2 := code block2;
                      recommendation := advice result |}];
                calls := calls st ++ [(i, j)] |}
        else {| findings := findings st; calls := calls st ++ [(i, j)] |}
    | None => {| findings := findings st; calls := calls st ++ [(i, j)] |}
    end.

(** [for (let j = i + 1; j < blocksToCompare.length; j++)]: [rest] holds
    the blocks from position [j] on. *)
Fixpoint inner (i j : nat) (block1 : CodeBlock) (rest : list CodeBlock)
    (st : Loop) : Loop :=
  match rest with
  | [] => st
  | block2 :: rest' => inner i (S j) block1 rest' (compare i j block1 block2 st)
  end.

(** [for (let i = 0; i < blocksToCompare.length; i++)]: [blocks] holds the
    blocks from position [i] on. *)
Fixpoint outer (i : nat) (blocks : list CodeBlock) (st : Loop) : Loop :=
  match blocks with
  | [] => st
  | block1 :: rest => outer (S i) rest (inner i (S i) block1 rest st)
  end.

(** The blocks a call of [analyze(files)] extracts. *)
Definition codeBlocksOf (repo : string) (files : option (list string))
  : list CodeBlock :=
  extractCodeBlocks (default (findFiles glob repo filePatterns) files).

(** [async analyze(files?)]. *)
Definition analyze (repo : string) (files : option (list string)) : Loop :=
  let blocksToCompare := take 50 (codeBlocksOf repo files) in
  outer 0 blocksToCompare {| findings := []; calls := [] |}.

End Analyzer.

(** The pairs the two loops go through, in order, with their positions. *)
Fixpoint innerPairs (i j : nat) (block1 : CodeBlock) (rest : list CodeBlock)
  : list (nat * nat * CodeBlock * CodeBlock) :=
  match rest with
  | [] => []
  | block2 :: rest' => (i, j, block1, block2) :: innerPairs i (S j) block1 rest'
  end.

Fixpoint outerPairs (i : nat) (blocks : list CodeBlock)
  : list (nat * nat * CodeBlock * CodeBlock) :=
  match blocks with
  | [] => []
  | block1 :: rest => innerPairs i (S i) block1 rest ++ outerPairs (S i) rest
  end.

(** What one pair adds to the findings, and to the calls. *)
Definition findingOfPair
    (checkSimilarity : nat -> nat -> CodeBlock -> CodeBlock -> option Similarity)
    (p : nat * nat * CodeBlock * CodeBlock) : option DuplicateFinding :=
  if bool_decide (file p.1.2 = file p.2) then None
  else
    match checkSimilarity p.1.1.1 p.1.1.2 p.1.2 p.2 with
    | Some result =>
        if js.gt (score result) (js.Finite (3 # 4))
        then Some {| file1 := file p.1.2;
                     file2 := file p.2;
                     similarity := score result;
                     codeBlock1 := code p.1.2;
                     codeBlock2 := code p.2;
                     recommendation := advice result |}
        else None
    | None => None
    end.

Definition callOfPair (p : nat * nat * CodeBlock * CodeBlock) : option (nat * nat) :=
  if bool_decide (file p.1.2 = file p.2) then None else Some p.1.1.

End Duplicate.

(** ** The dependency analyzer: package names of import paths *)

Module Dependency.

(** Lines 191-193 and 200-202 of [findUsedDependencies]: the package an
    import or require path belongs to. *)
Definition packageOf (importPath : string) : string :=
  if js.startsWith importPath "@"
  then js.join "/" (take 2 (js.split "/" importPath))
  else default "" (head (js.split "/" importPath)).

Section Used.

Variable glob : string -> string -> list string.
(** [fs.readFileSync(file, 'utf-8')]: [None] when it throws. *)
Variable readFileSync : string -> option string.
(** The first groups of the matches of the import and of the require
    regular expression in a text, in order. *)
Variable importPaths : string -> list string.
Variable requirePaths : string -> list string.

(** The body of the loop over the files, lines 183-207. *)
Definition scanFile (file : string) (used : gset string) : gset string :=
  match readFileSync file with
  | None => used
  | Some content =>
      let used1 := fold_left (fun acc p => acc ∪ {[packageOf p]})
                     (importPaths content) used in
      fold_left (fun acc p => acc ∪ {[packageOf p]}) (requirePaths content) used1
  end.

(** [private findUsedDependencies()]. *)
Definition findUsedDependencies (repo : string) : gset string :=
  fold_left (fun acc file => scanFile file acc)
    (findFiles glob repo ["**/*.js"; "**/*.ts"; "**/*.jsx"; "**/*.tsx"]) ∅.

End Used.

End Dependency.

(** ** Health metrics: the scores that count findings *)

Module Metrics.

Local Open Scope Z_scope.

(** [private scoreDuplicates(findings)], on the number of findings. *)
Definition scoreDuplicates {A : Type} (findings : list A) : Z :=
  let penalty := Z.min (Z.of_nat (length findings) * 5) 60 in
  Z.max (100 - penalty) 0.

(** [private scoreDependencies(findings)]. *)
Definition scoreDependencies {A : Type} (findings : list A) : Z :=
  let penalty := Z.min (Z.of_nat (length findings) * 3) 40 in
  Z.max (100 - penalty) 0.

End Metrics.

(** ** Roots, in the words of the specification *)

(** The declaration itself carries an export marker: the export keyword is
    among its own modifiers. *)
Definition ExportedItself (node : Node) : Prop :=
  ∃ ms m, modifiers node = Some ms ∧ m ∈ ms ∧ kind m = ExportKeyword.

(** The declaration carries one or more metadata annotations, wherever
    the tree holds them: in the [decorators] property, or as decorators
    among the modifiers. *)
Definition Annotated (node : Node) : Prop :=
  (∃ ds d, decorators node = Some ds ∧ d ∈ ds)
  ∨ (∃ ms m, modifiers node = Some ms ∧ m ∈ ms ∧ kind m = Decorator).

(** The path holds the marker as a segment of consecutive characters. *)
Definition HoldsMarker (path marker : string) : Prop :=
  ∃ before after, path = before +:+ marker +:+ after.

Definition InTestFile (sourceFile : SourceFile) : Prop :=
  HoldsMarker (fileName sourceFile) ".test."
  ∨ HoldsMarker (fileName sourceFile) ".spec.".

(** ** More small programs *)

Module MoreExamples.

(** [function fixtureOnly() {}] in a test file. *)
Definition fixtureDecl : Node :=
  Examples.functionLike FunctionDeclaration 0 25 "function fixtureOnly() {}" None
    (Examples.ident 9 "fixtureOnly") (Examples.block 23 25 "{}" []).

Definition fixtureFile : SourceFile :=
  Examples.sourceFile "/repo/src/util.test.ts" "function fixtureOnly() {}"
    (Examples.fileNode 25 "function fixtureOnly() {}" [fixtureDecl]).

(** [function outer() { const f = () => inner(); }]: the call sits in an
    arrow function inside a named function. *)
Definition arrowCall : Node := Examples.callOf 35 42 "inner()" (Examples.ident 35 "inner").

Definition arrowFunction : Node :=
  mkNode ArrowFunction 29 42 "() => inner()" None None None None [arrowCall].

Definition arrowStatement : Node :=
  mkNode VariableStatement 19 43 "const f = () => inner();" None None None None
    [Examples.ident 25 "f"; arrowFunction].

Definition outerBody : Node :=
  Examples.block 17 45 "{ const f = () => inner(); }" [arrowStatement].

Definition outerDecl : Node :=
  Examples.functionLike FunctionDeclaration 0 45
    "function outer() { const f = () => inner(); }" None
    (Examples.ident 9 "outer") outerBody.

(** The file of [Examples.appFile] in a repository whose path holds
    [.test.]. *)
Definition checkoutFile : SourceFile :=
  Examples.sourceFile "/work/app.test.v2/src/app.ts" Examples.appText
    Examples.appRoot.

(** [export function main() { used(); }], [function used() {}],
    [function dead() {}]: an exported caller, its callee, and a function
    nothing calls. *)
Definition mixedText : string :=
  "export function main() { used(); }" +:+ String "010" "function used() {}"
    +:+ String "010" "function dead() {}".

Definition mixedMain : Node :=
  Examples.functionLike FunctionDeclaration 0 34
    "export function main() { used(); }"
    (Some [Examples.leaf ExportKeyword 0 "export"]) (Examples.ident 16 "main")
    (Examples.block 23 34 "{ used(); }"
       [Examples.statement 25 32 "used();"
          (Examples.callOf 25 31 "used()" (Examples.ident 25 "used"))]).

Definition mixedUsed : Node :=
  Examples.functionLike FunctionDeclaration 35 53 "function used() {}" None
    (Examples.ident 44 "used") (Examples.block 51 53 "{}" []).

Definition mixedDead : Node :=
  Examples.functionLike FunctionDeclaration 54 72 "function dead() {}" None
    (Examples.ident 63 "dead") (Examples.block 70 72 "{}" []).

Definition mixedFile : SourceFile :=
  Examples.sourceFile "/repo/src/mixed.ts" mixedText
    (Examples.fileNode 72 mixedText [mixedMain; mixedUsed; mixedDead]).

Definition mixedProgram : Program := Examples.programOf [mixedFile].

End MoreExamples.

(** ** The call graph as a map of sets *)

Lemma addEdge_defined (calleeName : string) (g : CallGraph) :
  is_Some ((if bool_decide (is_Some (g !! calleeName)) then g
            else <[calleeName := ∅]> g) !! calleeName).
Proof.
  case_bool_decide as Hk; [exact Hk|].
  rewrite lookup_insert_eq. by eexists.
Qed.

Lemma addEdge_lookup (calleeName callerName k : string) (g : CallGraph) :
  addEdge calleeName callerName g !! k =
  if decide (k = calleeName) then Some (callersOf g calleeName ∪ {[callerName]})
  else g !! k.
Proof.
  unfold addEdge, callersOf.
  case_bool_decide as Hk.
  - destruct Hk as [callers Hc]. rewrite Hc.
    case_decide as Heq; subst.
    + by rewrite lookup_insert_eq.
    + by rewrite lookup_insert_ne.
  - apply eq_None_not_Some in Hk. rewrite lookup_insert_eq.
    case_decide as Heq; subst.
    + by rewrite lookup_insert_eq, Hk.
    + by rewrite !lookup_insert_ne.
Qed.

Lemma callersOf_addEdge (calleeName callerName k : string) (g : CallGraph) :
  callersOf (addEdge calleeName callerName g) k =
  if decide (k = calleeName) then callersOf g calleeName ∪ {[callerName]}
  else callersOf g k.
Proof.
  unfold callersOf at 1. rewrite addEdge_lookup. by case_decide.
Qed.

Lemma addEdge_comm (c1 r1 c2 r2 : string) (g : CallGraph) :
  addEdge c1 r1 (addEdge c2 r2 g) = addEdge c2 r2 (addEdge c1 r1 g).
Proof.
  apply map_eq; intros k.
  rewrite !addEdge_lookup, !callersOf_addEdge.
  repeat case_decide; subst; try done.
  f_equal. set_solver.
Qed.

Lemma addEdge_idemp (c r : string) (g : CallGraph) :
  addEdge c r (addEdge c r g) = addEdge c r g.
Proof.
  apply map_eq; intros k.
  rewrite !addEdge_lookup, !callersOf_addEdge.
  repeat case_decide; subst; try done.
  f_equal. set_solver.
Qed.

Lemma addEdges_app (es1 es2 : list (string * string)) (g : CallGraph) :
  addEdges (es1 ++ es2) g = addEdges es2 (addEdges es1 g).
Proof. apply fold_left_app. Qed.

Lemma addEdge_addEdges (c r : string) (es : list (string * string)) (g : CallGraph) :
  addEdge c r (addEdges es g) = addEdges es (addEdge c r g).
Proof.
  revert g. induction es as [|[c' r'] es IH]; intros g; [done|].
  cbn [addEdges fold_left fst snd]. fold (addEdges es (addEdge c' r' g)).
  rewrite IH. fold (addEdges es (addEdge c' r' (addEdge c r g))).
  by rewrite addEdge_comm.
Qed.

(** Once an edge is in the sequence, recording it again changes nothing. *)
Lemma addEdges_absorb (e : string * string) (es : list (string * string))
    (g : CallGraph) :
  e ∈ es → addEdge e.1 e.2 (addEdges es g) = addEdges es g.
Proof.
  revert g. induction es as [|e' es IH]; intros g Hin; [by inversion Hin|].
  apply elem_of_cons in Hin as [->|Hin].
  - cbn [addEdges fold_left]. fold (addEdges es (addEdge e'.1 e'.2 g)).
    by rewrite addEdge_addEdges, addEdge_idemp.
  - cbn [addEdges fold_left]. fold (addEdges es (addEdge e'.1 e'.2 g)).
    by apply IH.
Qed.

Lemma addEdges_idemp (es : list (string * string)) (g : CallGraph) :
  addEdges es (addEdges es g) = addEdges es g.
Proof.
  assert (H : ∀ es' g', (∀ e, e ∈ es' → addEdge e.1 e.2 g' = g') →
                        addEdges es' g' = g').
  { induction es' as [|e es' IH]; intros g' Habs; [done|].
    cbn [addEdges fold_left]. fold (addEdges es' (addEdge e.1 e.2 g')).
    rewrite Habs by left. apply IH. intros e' He'. apply Habs. by right. }
  apply H. intros e He. by apply addEdges_absorb.
Qed.

(** The callers of a name after a sequence of edges: the callers before,
    and the callers of the edges to that name. *)
Lemma callersOf_addEdges (es : list (string * string)) (g : CallGraph) (q : string) :
  callersOf (addEdges es g) q =
  callersOf g q ∪ list_to_set (snd <$> filter (λ e, e.1 = q) es).
Proof.
  revert g. induction es as [|[c r] es IH]; intros g.
  - cbn. set_solver.
  - cbn [addEdges fold_left fst snd]. fold (addEdges es (addEdge c r g)).
    rewrite IH, callersOf_addEdge, filter_cons. cbn [fst].
    repeat case_decide; subst; try done; cbn; set_solver.
Qed.

(** ** The build pass records the edges of the visited call sites *)

Lemma recordCall_spec (checker : TypeChecker) (parents : list Node) (node : Node)
    (this : DeadCodeAnalyzer) :
  recordCall checker parents node this =
  {| callGraph := addEdges (option_list (callEdge checker (parents, node)))
                    (callGraph this);
     repoPath := repoPath this |}.
Proof.
  unfold recordCall, callEdge. cbn [fst snd].
  destruct this as [g repo]. cbn [callGraph repoPath].
  destruct (isCallExpression node); [|done].
  destruct (getContainingFunction checker (node :: parents)); [|done].
  by destruct (expression node ≫= getSymbolAtLocation checker).
Qed.

Lemma visitCalls_children (checker : TypeChecker) (chain : list Node)
    (cs : list Node) :
  Forall (λ c, ∀ parents this,
            visitCalls checker parents c this =
            {| callGraph := addEdges (omap (callEdge checker) (walk parents c))
                              (callGraph this);
               repoPath := repoPath this |}) cs →
  ∀ this,
    fold_left (λ acc child, visitCalls checker chain child acc) cs this =
    {| callGraph := addEdges (omap (callEdge checker) (flat_map (walk chain) cs))
                      (callGraph this);
       repoPath := repoPath this |}.
Proof.
  induction 1 as [|c cs Hc _ IHcs]; intros this.
  - by destruct this.
  - cbn [fold_left flat_map]. rewrite IHcs, Hc. cbn [callGraph repoPath].
    by rewrite omap_app, addEdges_app.
Qed.

Lemma visitCalls_spec (checker : TypeChecker) (node : Node) :
  ∀ parents this,
    visitCalls checker parents node this =
    {| callGraph := addEdges (omap (callEdge checker) (walk parents node))
                      (callGraph this);
       repoPath := repoPath this |}.
Proof.
  induction node as [node IH] using Node_children_ind. intros parents this.
  destruct node as [k s e t nm ex ms ds cs].
  cbn [visitCalls walk children] in *.
  rewrite (visitCalls_children _ _ _ IH), recordCall_spec.
  cbn [callGraph repoPath omap list_omap].
  by destruct (callEdge checker _).
Qed.

Lemma buildCallGraph_spec (program : Program) (this : DeadCodeAnalyzer) :
  buildCallGraph program this =
  {| callGraph := addEdges (callEdges program) (callGraph this);
     repoPath := repoPath this |}.
Proof.
  unfold buildCallGraph, callEdges, sites.
  generalize (getSourceFiles program) as files. intros files. revert this.
  induction files as [|f files IH]; intros this.
  - by destruct this.
  - cbn [fold_left flat_map]. rewrite IH.
    destruct (isDeclarationFile f); [done|].
    rewrite visitCalls_spec. cbn [callGraph repoPath].
    by rewrite omap_app, addEdges_app.
Qed.

Lemma buildCallGraph_idemp (program : Program) (this : DeadCodeAnalyzer) :
  buildCallGraph program (buildCallGraph program this) =
  buildCallGraph program this.
Proof.
  rewrite !buildCallGraph_spec. cbn [callGraph repoPath].
  by rewrite addEdges_idemp.
Qed.

(** ** The classification pass reports the dead declarations it finds *)

Lemma neverCalled_iff (g : CallGraph) (q : string) :
  neverCalled (g !! q) = true ↔ NoIncomingEdge g q.
Proof.
  unfold neverCalled, NoIncomingEdge, callersOf.
  destruct (g !! q) as [callers|]; cbn; [|done].
  rewrite bool_decide_eq_true. split.
  - intros Hsize. by apply leibniz_equiv, size_empty_iff.
  - intros ->. apply size_empty.
Qed.

Lemma NoIncomingEdge_iff (g : CallGraph) (q : string) :
  NoIncomingEdge g q ↔ g !! q = None ∨ g !! q = Some ∅.
Proof.
  unfold NoIncomingEdge, callersOf.
  destruct (g !! q) as [callers|]; cbn; naive_solver.
Qed.

Lemma isRoot_iff (d : Declaration) :
  negb (isExported (declNode d)) && negb (isTestFile (declFile d))
    && negb (hasDecorators (declNode d)) = true ↔ ¬ IsRoot d.
Proof.
  unfold IsRoot.
  destruct (isExported (declNode d)), (isTestFile (declFile d)),
    (hasDecorators (declNode d)); cbn; naive_solver.
Qed.

Section Classification.

Variable relative : string -> string -> string.
Variable checker : TypeChecker.

Lemma reportDeclaration_spec (sourceFile : SourceFile) (node : Node)
    (symbol : Symbol) (st : Run) :
  reportDeclaration relative checker sourceFile node symbol st =
  {| self := self st;
     findings := findings st
       ++ deadFindings relative checker (self st)
            [mkDeclaration sourceFile node symbol] |}.
Proof.
  unfold reportDeclaration, deadFindings.
  set (d := mkDeclaration sourceFile node symbol).
  rewrite filter_cons, filter_nil.
  pose proof (neverCalled_iff (callGraph (self st)) (qualifiedName checker d)) as Hn.
  pose proof (isRoot_iff d) as Hr.
  unfold qualifiedName in Hn. cbn [declNode declFile declSymbol d] in *.
  destruct (neverCalled _) eqn:En.
  - destruct (_ && _) eqn:Er.
    + rewrite decide_True; [done|]. split; [by apply Hr|by apply Hn].
    + rewrite decide_False.
      * destruct st; cbn. by rewrite app_nil_r.
      * intros [Hd _]. apply Hr in Hd. congruence.
  - rewrite decide_False.
    + destruct st; cbn. by rewrite app_nil_r.
    + intros [_ Hd]. apply Hn in Hd. congruence.
Qed.

Lemma deadFindings_app (this : DeadCodeAnalyzer) (ds1 ds2 : list Declaration) :
  deadFindings relative checker this (ds1 ++ ds2) =
  deadFindings relative checker this ds1 ++ deadFindings relative checker this ds2.
Proof. unfold deadFindings. by rewrite filter_app, fmap_app. Qed.

Lemma visitDecls_children (sourceFile : SourceFile) (cs : list Node) :
  Forall (λ c, ∀ st,
            visitDecls relative checker sourceFile c st =
            {| self := self st;
               findings := findings st
                 ++ deadFindings relative checker (self st)
                      (declarationsIn checker sourceFile c) |}) cs →
  ∀ st,
    fold_left (λ acc child, visitDecls relative checker sourceFile child acc) cs st =
    {| self := self st;
       findings := findings st
         ++ deadFindings relative checker (self st)
              (flat_map (declarationsIn checker sourceFile) cs) |}.
Proof.
  induction 1 as [|c cs Hc _ IHcs]; intros st.
  - destruct st; cbn. by rewrite app_nil_r.
  - cbn [fold_left flat_map]. rewrite IHcs, Hc. cbn [self findings].
    by rewrite deadFindings_app, app_assoc.
Qed.

Lemma visitDecls_spec (sourceFile : SourceFile) (node : Node) :
  ∀ st,
    visitDecls relative checker sourceFile node st =
    {| self := self st;
       findings := findings st
         ++ deadFindings relative checker (self st)
              (declarationsIn checker sourceFile node) |}.
Proof.
  induction node as [node IH] using Node_children_ind. intros st.
  destruct node as [k s e t nm ex ms ds cs].
  cbn [visitDecls declarationsIn children] in *.
  destruct (_ || _).
  - destruct (_ ≫= _) as [symbol|].
    + rewrite (visitDecls_children _ _ IH), reportDeclaration_spec.
      cbn [self findings].
      by rewrite <- app_assoc, <- deadFindings_app.
    + destruct st; cbn. by rewrite app_nil_r.
  - by rewrite (visitDecls_children _ _ IH).
Qed.

End Classification.

Lemma findUnreferenced_spec (relative : string -> string -> string)
    (program : Program) (st : Run) :
  findUnreferenced relative program st =
  {| self := self st;
     findings := findings st
       ++ deadFindings relative (getTypeChecker program) (self st)
            (declarations program) |}.
Proof.
  unfold findUnreferenced, declarations.
  generalize (getSourceFiles program) as files. intros files. revert st.
  induction files as [|f files IH]; intros st.
  - destruct st; cbn. by rewrite app_nil_r.
  - cbn [fold_left flat_map]. rewrite IH, deadFindings_app.
    destruct (isDeclarationFile f); [done|].
    rewrite visitDecls_spec. cbn [self findings]. by rewrite app_assoc.
Qed.

Section Run.

Variable glob : string -> string -> list string.
Variable createProgram : list string -> Program.
Variable relative : string -> string -> string.

(** What a run over a non-empty file set returns and leaves behind. *)
Lemma analyze_spec (this : DeadCodeAnalyzer) :
  findFiles glob (repoPath this) filePatterns ≠ [] →
  let program := createProgram (findFiles glob (repoPath this) filePatterns) in
  analyze glob createProgram relative this =
  (deadFindings relative (getTypeChecker program) (buildCallGraph program this)
     (declarations program),
   buildCallGraph program this).
Proof.
  intros Hfiles program. unfold analyze.
  rewrite bool_decide_eq_false_2.
  - fold program. by rewrite findUnreferenced_spec.
  - by destruct (findFiles glob (repoPath this) filePatterns).
Qed.

Lemma analyze_empty (this : DeadCodeAnalyzer) :
  findFiles glob (repoPath this) filePatterns = [] →
  analyze glob createProgram relative this = ([], this).
Proof. intros Hfiles. unfold analyze. by rewrite Hfiles. Qed.

End Run.

Lemma repoPath_buildCallGraph (program : Program) (this : DeadCodeAnalyzer) :
  repoPath (buildCallGraph program this) = repoPath this.
Proof. by rewrite buildCallGraph_spec. Qed.

(** ** Properties of the engine *)

Section Properties.

Variable glob : string -> string -> list string.
Variable createProgram : list string -> Program.
Variable relative : string -> string -> string.

#[local] Abbreviation run := (analyze glob createProgram relative).
#[local] Abbreviation programOf := (programOfRun glob createProgram).
#[local] Abbreviation graphOf := (graphOfRun glob createProgram).

(** The classification in terms of the three checks of the engine.  In a
    run over a non-empty file set, the findings returned are the findings
    of exactly those found declarations for which [isExported],
    [isTestFile] and [hasDecorators] are all false and whose qualified
    name has no incoming edge in the call graph (key absent, or empty
    caller set), one finding per such declaration and in the order of the
    visit; at each declaration the pass pushes its finding if that holds
    and pushes nothing otherwise. *)
Theorem dead_iff_not_root_and_no_incoming_edge (this : DeadCodeAnalyzer) :
  findFiles glob (repoPath this) filePatterns ≠ [] →
  fst (run this) =
    findingOf relative (repoPath this) <$>
      filter (λ d, ¬ IsRoot d ∧
                   (graphOf this !! qualifiedName
                      (getTypeChecker (programOf this)) d = None
                    ∨ graphOf this !! qualifiedName
                        (getTypeChecker (programOf this)) d = Some ∅))
             (declarations (programOf this))
  ∧ ∀ (d : Declaration) (fs : list DeadCodeFinding),
      let checker := getTypeChecker (programOf this) in
      let st := mkRun (buildCallGraph (programOf this) this) fs in
      let st' := reportDeclaration relative checker (declFile d) (declNode d)
                   (declSymbol d) st in
      (findings st' = fs ++ [findingOf relative (repoPath this) d]
       ↔ ¬ IsRoot d ∧ (graphOf this !! qualifiedName checker d = None
                       ∨ graphOf this !! qualifiedName checker d = Some ∅))
      ∧ (findings st' = fs ∨ findings st' = fs ++ [findingOf relative (repoPath this) d]).
Proof.
  intros Hfiles. split.
  - rewrite (analyze_spec _ _ _ _ Hfiles). cbn [fst].
    unfold deadFindings. rewrite repoPath_buildCallGraph. f_equal.
    apply list_filter_iff. intros d. unfold Dead.
    by rewrite NoIncomingEdge_iff.
  - intros d fs checker st st'. subst st'.
    rewrite reportDeclaration_spec. subst st. cbn [self findings].
    unfold deadFindings. rewrite repoPath_buildCallGraph.
    rewrite filter_cons, filter_nil. destruct d as [sf node symbol].
    cbn [declFile declNode declSymbol].
    rewrite <- NoIncomingEdge_iff. fold (Dead checker (graphOf this)
      (mkDeclaration sf node symbol)).
    unfold graphOfRun, programOfRun. subst checker.
    case_decide as Hd; cbn.
    + split; [done|by right].
    + rewrite app_nil_r. split; [|by left]. split; [|done].
      intros Heq. apply (f_equal length) in Heq.
      rewrite length_app in Heq. cbn in Heq. lia.
Qed.

(** C6.  When file discovery finds no file, [analyze] returns the empty
    sequence of findings, and it is a total function: no error is raised.
    The analyzer is left as it was. *)
Theorem empty_input_no_findings (this : DeadCodeAnalyzer) :
  findFiles glob (repoPath this) filePatterns = [] →
  run this = ([], this).
Proof.
intros Hfiles. unfold analyze. rewrite Hfiles.
by rewrite bool_decide_eq_true_2.
Qed.

(** C9.  The classification pass only reads the call graph: the visit of
    any node, and the whole pass over a program, leave the analyzer
    object (and so its callee-to-callers map) as the build pass left it,
    and the analyzer after [analyze] holds the graph of the build pass. *)
Theorem classification_preserves_call_graph :
  (∀ checker sourceFile node st,
      self (visitDecls relative checker sourceFile node st) = self st)
  ∧ (∀ checker sourceFile node symbol st,
      self (reportDeclaration relative checker sourceFile node symbol st) = self st)
  ∧ (∀ program st,
      callGraph (self (findUnreferenced relative program st)) = callGraph (self st))
  ∧ (∀ this,
      callGraph (snd (run this)) =
      if bool_decide (length (findFiles glob (repoPath this) filePatterns) = 0)
      then callGraph this else graphOf this).
Proof.
  repeat split.
  - intros. by rewrite visitDecls_spec.
  - intros. by rewrite reportDeclaration_spec.
  - intros. by rewrite findUnreferenced_spec.
  - intros this. unfold analyze, graphOfRun, programOfRun.
    case_bool_decide; [done|]. cbn [snd].
    by rewrite findUnreferenced_spec.
Qed.

(** C8.  Idempotence.  Running [analyze] a second time on the same
    analyzer, over the same files and program, returns the same sequence
    of findings (names, line spans and confidence included) and leaves
    the same analyzer; the edges the second build pass records are
    already in the graph. *)
Theorem analyze_twice_same_findings (this : DeadCodeAnalyzer) :
  fst (run (snd (run this))) = fst (run this)
  ∧ snd (run (snd (run this))) = snd (run this).
Proof.
  destruct (decide (findFiles glob (repoPath this) filePatterns = [])) as [He|Hne].
  - rewrite (analyze_empty _ _ _ _ He). cbn [snd].
    by rewrite (analyze_empty _ _ _ _ He).
  - rewrite (analyze_spec _ _ _ _ Hne). cbn [fst snd].
    set (program := createProgram _).
    assert (Hne' : findFiles glob (repoPath (buildCallGraph program this))
                     filePatterns ≠ []).
    { by rewrite repoPath_buildCallGraph. }
    rewrite (analyze_spec _ _ _ _ Hne'). cbn [fst snd].
    rewrite repoPath_buildCallGraph. fold program.
    by rewrite buildCallGraph_idemp.
Qed.


(** C3, as the code has it.  A declaration whose own modifiers hold the
    export keyword is never reported, whatever the call graph holds: the
    visit of that declaration pushes no finding, and every finding a run
    returns is the finding of a found declaration other than it. *)
Theorem exported_declaration_never_reported (node : Node) :
  isExported node = true →
  (∀ checker sourceFile symbol st,
      reportDeclaration relative checker sourceFile node symbol st = st)
  ∧ (∀ this f, f ∈ fst (run this) →
       ∃ d, d ∈ declarations (programOf this) ∧ declNode d ≠ node
            ∧ f = findingOf relative (repoPath this) d).
Proof.
  intros Hexp. split.
  - intros checker sf symbol st. unfold reportDeclaration. rewrite Hexp.
    by destruct (neverCalled _).
  - intros this f Hf.
    destruct (decide (findFiles glob (repoPath this) filePatterns = [])) as [He|Hne].
    + rewrite (analyze_empty _ _ _ _ He) in Hf. by inversion Hf.
    + rewrite (analyze_spec _ _ _ _ Hne) in Hf. cbn [fst] in Hf.
      unfold deadFindings in Hf. rewrite repoPath_buildCallGraph in Hf.
      apply list_elem_of_fmap in Hf as (d & -> & Hd).
      apply list_elem_of_filter in Hd as [[Hroot _] Hd].
      exists d. split; [done|]. split; [|done].
      intros <-. apply Hroot. by left.
Qed.

(** The check of annotations that the source writes.  A declaration whose
    [decorators] property is a non-empty array is never reported, even
    when no edge enters its qualified name: the visit of that declaration
    pushes no finding, and every finding a run returns is the finding of
    a found declaration other than it. *)
Theorem annotated_declaration_never_reported (node : Node) :
  hasDecorators node = true →
  (∀ checker sourceFile symbol st,
      reportDeclaration relative checker sourceFile node symbol st = st)
  ∧ (∀ this f, f ∈ fst (run this) →
       ∃ d, d ∈ declarations (programOf this) ∧ declNode d ≠ node
            ∧ f = findingOf relative (repoPath this) d).
Proof.
  intros Hdec. split.
  - intros checker sf symbol st. unfold reportDeclaration. rewrite Hdec.
    rewrite andb_false_r. by destruct (neverCalled _).
  - intros this f Hf.
    destruct (decide (findFiles glob (repoPath this) filePatterns = [])) as [He|Hne].
    + rewrite (analyze_empty _ _ _ _ He) in Hf. by inversion Hf.
    + rewrite (analyze_spec _ _ _ _ Hne) in Hf. cbn [fst] in Hf.
      unfold deadFindings in Hf. rewrite repoPath_buildCallGraph in Hf.
      apply list_elem_of_fmap in Hf as (d & -> & Hd).
      apply list_elem_of_filter in Hd as [[Hroot _] Hd].
      exists d. split; [done|]. split; [|done].
      intros <-. apply Hroot. by right; right.
Qed.

(** C5.  Every finding a run returns has confidence 0.9 (the rational
    9/10 stands for the number literal), the fixed reason string, and
    the line span of a found declaration: the line of the start of the
    declaration node plus one and the line of its end plus one, so both
    are counted from 1. *)
Theorem finding_confidence_reason_and_span (this : DeadCodeAnalyzer)
    (f : DeadCodeFinding) :
  f ∈ fst (run this) →
  confidence f = (9 # 10)%Q
  ∧ reason f = "Function has no internal references and is not exported"
  ∧ ∃ d, d ∈ declarations (programOf this)
         ∧ lineStart f =
             line (getLineAndCharacterOfPosition (declFile d)
                     (getStart (declNode d))) + 1
         ∧ lineEnd f =
             line (getLineAndCharacterOfPosition (declFile d)
                     (getEnd (declNode d))) + 1
         ∧ 1 ≤ lineStart f ∧ 1 ≤ lineEnd f.
Proof.
  intros Hf.
  destruct (decide (findFiles glob (repoPath this) filePatterns = [])) as [He|Hne].
  - rewrite (analyze_empty _ _ _ _ He) in Hf. by inversion Hf.
  - rewrite (analyze_spec _ _ _ _ Hne) in Hf. cbn [fst] in Hf.
    apply list_elem_of_fmap in Hf as (d & -> & Hd).
    apply list_elem_of_filter in Hd as [_ Hd].
    split; [done|]. split; [done|].
    exists d. cbn. split; [done|]. split; [done|]. split; [done|]. lia.
Qed.

(** C10.  A declaration with a call site of the program whose callee
    resolves to the declaration's qualified name and whose enclosing
    function is the declaration itself has itself among its callers once
    the graph is built, so the classification pass pushes no finding for
    it: a function that only calls itself is referenced. *)
Theorem self_recursive_function_not_reported (program : Program)
    (this : DeadCodeAnalyzer) (d : Declaration) (parents : list Node)
    (call : Node) (callee : Symbol) :
  (parents, call) ∈ sites program →
  isCallExpression call = true →
  expression call ≫= getSymbolAtLocation (getTypeChecker program) = Some callee →
  getFullSymbolName (getTypeChecker program) callee =
    qualifiedName (getTypeChecker program) d →
  getContainingFunction (getTypeChecker program) (call :: parents) =
    Some (declSymbol d) →
  qualifiedName (getTypeChecker program) d ∈
    callersOf (callGraph (buildCallGraph program this))
      (qualifiedName (getTypeChecker program) d)
  ∧ ∀ fs,
      reportDeclaration relative (getTypeChecker program) (declFile d)
        (declNode d) (declSymbol d) (mkRun (buildCallGraph program this) fs)
      = mkRun (buildCallGraph program this) fs.
Proof.
  intros Hsite Hcall Hcallee Hname Hcaller.
  set (checker := getTypeChecker program) in *.
  set (q := qualifiedName checker d) in *.
  assert (Hedge : (q, q) ∈ callEdges program).
  { unfold callEdges. apply list_elem_of_omap. exists (parents, call).
    split; [done|]. unfold callEdge. cbn [fst snd]. fold checker.
    by rewrite Hcall, Hcaller, Hcallee, Hname. }
  assert (Hin : q ∈ callersOf (callGraph (buildCallGraph program this)) q).
  { rewrite buildCallGraph_spec. cbn [callGraph].
    rewrite callersOf_addEdges. apply elem_of_union_r, elem_of_list_to_set.
    apply list_elem_of_fmap. exists (q, q). split; [done|].
    by apply list_elem_of_filter. }
  split; [done|]. intros fs. unfold reportDeclaration. cbn [self findings].
  fold checker. fold (qualifiedName checker d). fold q.
  destruct (neverCalled _) eqn:Hn; [|done].
  apply neverCalled_iff in Hn. unfold NoIncomingEdge in Hn.
  rewrite Hn in Hin. set_solver.
Qed.

End Properties.

(** C7.  Set semantics of the call graph.  Recording an edge makes the
    callee's set the union of the set it had with the caller and leaves
    every other key alone; recording the same edge any number of times
    is recording it once; the caller counts once in the callee's set;
    and after the build pass the callers of a name are the callers held
    before together with the callers of the call sites that target it,
    however many times each occurs. *)
Theorem call_graph_set_semantics :
  (∀ (calleeName callerName : string) (g : CallGraph),
      (∀ k, addEdge calleeName callerName g !! k =
            if decide (k = calleeName)
            then Some (callersOf g calleeName ∪ {[callerName]})
            else g !! k)
      ∧ (∀ n, Nat.iter (S n) (addEdge calleeName callerName) g =
              addEdge calleeName callerName g)
      ∧ size (callersOf (addEdge calleeName callerName g) calleeName) =
        S (size (callersOf g calleeName ∖ {[callerName]})))
  ∧ (∀ (program : Program) (this : DeadCodeAnalyzer) (q : string),
      callersOf (callGraph (buildCallGraph program this)) q =
      callersOf (callGraph this) q
        ∪ list_to_set (snd <$> filter (λ e, e.1 = q) (callEdges program))).
Proof.
  split.
  - intros c r g. split; [|split].
    + intros k. apply addEdge_lookup.
    + induction n as [|n IH]; [done|].
      change (Nat.iter (S (S n)) (addEdge c r) g)
        with (addEdge c r (Nat.iter (S n) (addEdge c r) g)).
      by rewrite IH, addEdge_idemp.
    + rewrite callersOf_addEdge, decide_True by done.
      replace (callersOf g c ∪ {[r]})
        with ({[r]} ∪ callersOf g c ∖ {[r]}).
      * rewrite size_union by set_solver. by rewrite size_singleton.
      * apply leibniz_equiv. intros x.
        destruct (decide (x = r)); set_solver.
  - intros program this q. rewrite buildCallGraph_spec. cbn [callGraph].
    apply callersOf_addEdges.
Qed.

(** ** The properties at the small programs *)

Lemma dead_iff_not_root_and_no_incoming_edge_app :
  findFiles (Examples.globOf ["/repo/src/app.ts"]) "/repo" filePatterns ≠ []
  ∧ fst (Examples.runOn "/repo/src/app.ts" Examples.appProgram) =
      findingOf Examples.relative "/repo" <$>
        filter (λ d, ¬ IsRoot d ∧
                     (callGraph (buildCallGraph Examples.appProgram Examples.analyzer)
                        !! qualifiedName Examples.checker d = None
                      ∨ callGraph (buildCallGraph Examples.appProgram Examples.analyzer)
                          !! qualifiedName Examples.checker d = Some ∅))
               (declarations Examples.appProgram).
Proof.
  split; [by vm_compute|].
  apply (dead_iff_not_root_and_no_incoming_edge
           (Examples.globOf ["/repo/src/app.ts"]) (fun _ => Examples.appProgram)
           Examples.relative Examples.analyzer).
  by vm_compute.
Defined.



(** C3 as stated fails: the method [run] of the exported class [Service]
    has an export marker on a container, it is found by the classification
    pass, and the run reports it dead. *)
Lemma exported_class_method_counterexample :
  ExportMarked [Examples.serviceClass; Examples.serviceRoot] Examples.runMethod
  ∧ ([Examples.serviceClass; Examples.serviceRoot], Examples.runMethod)
    ∈ sites Examples.serviceProgram
  ∧ declarations Examples.serviceProgram =
    [mkDeclaration Examples.serviceFile Examples.runMethod (mkSymbol 0 "run")]
  ∧ fst (Examples.runOn "/repo/src/service.ts" Examples.serviceProgram) =
    [Examples.findingAt "src/service.ts" "run" 2 2].
Proof.
  split; [|split; [|split]].
  - right. exists Examples.serviceClass. split; [by left|reflexivity].
  - apply list_elem_of_In. cbn. tauto.
  - reflexivity.
  - vm_compute. reflexivity.
Qed.

Lemma exported_declaration_never_reported_main :
  isExported Examples.mainDecl = true
  ∧ ∀ checker sourceFile symbol st,
      reportDeclaration Examples.relative checker sourceFile Examples.mainDecl
        symbol st = st.
Proof.
  split; [reflexivity|].
  apply (exported_declaration_never_reported (fun _ _ => [])
           (fun _ => Examples.appProgram) Examples.relative Examples.mainDecl).
  reflexivity.
Defined.

Lemma annotated_declaration_never_reported_handler :
  hasDecorators Examples.handlerMethod = true
  ∧ ∀ checker sourceFile symbol st,
      reportDeclaration Examples.relative checker sourceFile
        Examples.handlerMethod symbol st = st.
Proof.
  split; [reflexivity|].
  apply (annotated_declaration_never_reported (fun _ _ => [])
           (fun _ => Examples.appProgram) Examples.relative Examples.handlerMethod).
  reflexivity.
Defined.

(** The check of annotations reads the [decorators] property alone: a
    decorator held among the modifiers of a method does not exempt it. *)
Remark decorator_among_modifiers_not_read :
  hasDecorators Examples.listMethod = false
  ∧ fst (Examples.runOn "/repo/src/api.ts" Examples.apiProgram) =
    [Examples.findingAt "src/api.ts" "list" 2 2].
Proof. split; [reflexivity|]. vm_compute. reflexivity. Qed.

Lemma finding_confidence_reason_and_span_app :
  Examples.findingAt "src/app.ts" "helper" 1 1
    ∈ fst (Examples.runOn "/repo/src/app.ts" Examples.appProgram)
  ∧ confidence (Examples.findingAt "src/app.ts" "helper" 1 1) = (9 # 10)%Q
  ∧ reason (Examples.findingAt "src/app.ts" "helper" 1 1)
    = "Function has no internal references and is not exported".
Proof.
  assert (H : Examples.findingAt "src/app.ts" "helper" 1 1
                ∈ fst (Examples.runOn "/repo/src/app.ts" Examples.appProgram)).
  { vm_compute. left. }
  split; [exact H|].
  pose proof (finding_confidence_reason_and_span
                (Examples.globOf ["/repo/src/app.ts"]) (fun _ => Examples.appProgram)
                Examples.relative Examples.analyzer _ H) as (Hc & Hr & _).
  split; [exact Hc|exact Hr].
Defined.

Lemma empty_input_no_findings_empty_repository :
  findFiles (fun _ _ => []) "/repo" filePatterns = []
  ∧ analyze (fun _ _ => []) (fun _ => Examples.appProgram) Examples.relative
      Examples.analyzer = ([], Examples.analyzer).
Proof.
  split; [reflexivity|].
  apply (empty_input_no_findings (fun _ _ => []) (fun _ => Examples.appProgram)
           Examples.relative Examples.analyzer).
  reflexivity.
Defined.

Lemma self_recursive_function_not_reported_loop :
  "loop" ∈ callersOf (callGraph (buildCallGraph Examples.loopProgram Examples.analyzer))
             "loop"
  ∧ ∀ fs,
      reportDeclaration Examples.relative Examples.checker Examples.loopFile
        Examples.loopDecl (mkSymbol 0 "loop")
        (mkRun (buildCallGraph Examples.loopProgram Examples.analyzer) fs)
      = mkRun (buildCallGraph Examples.loopProgram Examples.analyzer) fs.
Proof.
  apply (self_recursive_function_not_reported Examples.relative
           Examples.loopProgram Examples.analyzer
           (mkDeclaration Examples.loopFile Examples.loopDecl (mkSymbol 0 "loop"))
           [Examples.statement 18 25 "loop();" Examples.loopCall;
            Examples.loopBody; Examples.loopDecl; Examples.loopRoot]
           Examples.loopCall (mkSymbol 0 "loop")).
  - apply list_elem_of_In. cbn. tauto.
  - reflexivity.
  - reflexivity.
  - reflexivity.
  - reflexivity.
Defined.

Lemma call_graph_set_semantics_twice :
callEdges Examples.twiceProgram = [("helper", "twice"); ("helper", "twice")]
∧ callersOf (callGraph (buildCallGraph Examples.twiceProgram Examples.analyzer))
    "helper" = {["twice"]}.
Proof.
split; [reflexivity|].
destruct call_graph_set_semantics as [_ Hbuild]. rewrite Hbuild.
change (callEdges Examples.twiceProgram)
  with [("helper", "twice"); ("helper", "twice")].
change (callersOf (callGraph Examples.analyzer) "helper") with (∅ : gset string).
rewrite !filter_cons_True by reflexivity. cbn. set_solver.
Defined.

Example includes_test_marker :
includes "/repo/src/util.test.ts" ".test." = true
∧ includes "/repo/src/util.spec.tsx" ".spec." = true
∧ includes "/repo/src/contest.ts" ".test." = false.
Proof. repeat split. Qed.

Example findFiles_keeps_first_occurrences :
findFiles (fun pattern _ =>
             if bool_decide (pattern = "**/*.ts") then ["/r/a.ts"; "/r/b.ts"]
             else if bool_decide (pattern = "**/*.js") then ["/r/c.js"; "/r/a.ts"]
             else [])
  "/r" filePatterns = ["/r/a.ts"; "/r/b.ts"; "/r/c.js"].
Proof. reflexivity. Qed.

(** ** File discovery *)

Lemma uniq_elem_of (seen allFiles : list string) (f : string) :
  f ∈ uniq seen allFiles ↔ f ∈ allFiles ∧ f ∉ seen.
Proof.
  revert seen. induction allFiles as [|x rest IH]; intros seen; cbn.
  - split; [by inversion 1|]. intros [H _]. by inversion H.
  - case_bool_decide as Hx.
    + rewrite IH, elem_of_cons. split; [naive_solver|].
      intros [[->|Hin] Hseen]; [done|naive_solver].
    + rewrite !elem_of_cons, IH, elem_of_cons.
      split; [|destruct (decide (f = x)); naive_solver].
      intros [->|[Hin Hseen]]; [naive_solver|].
      split; [by right|]. naive_solver.
Qed.

Lemma uniq_NoDup (seen allFiles : list string) : NoDup (uniq seen allFiles).
Proof.
  revert seen. induction allFiles as [|x rest IH]; intros seen; cbn.
  - constructor.
  - case_bool_decide as Hx; [apply IH|].
    apply NoDup_cons. split; [|apply IH].
    rewrite uniq_elem_of. intros [_ Hseen]. apply Hseen. by left.
Qed.

Lemma uniq_sublist (seen allFiles : list string) :
  uniq seen allFiles `sublist_of` allFiles.
Proof.
  revert seen. induction allFiles as [|x rest IH]; intros seen; cbn.
  - constructor.
  - case_bool_decide; [apply sublist_cons|apply sublist_skip]; apply IH.
Qed.

Lemma uniq_first_occurrences (seen allFiles : list string) (i j : nat)
    (f g : string) :
  i < j →
  uniq seen allFiles !! i = Some f →
  uniq seen allFiles !! j = Some g →
  ∃ k, allFiles !! k = Some f ∧ g ∉ take k allFiles.
Proof.
  revert seen i j. induction allFiles as [|x rest IH]; intros seen i j Hij Hi Hj.
  { by cbn in Hi. }
  cbn [uniq] in Hi, Hj. case_bool_decide as Hx.
  - destruct (IH seen i j Hij Hi Hj) as (k & Hk & Hg).
    exists (S k). split; [done|]. cbn [take]. intros [-> | Hin]%elem_of_cons;
      [|done].
    apply list_elem_of_lookup_2, uniq_elem_of in Hj as [_ Hseen]. done.
  - destruct j as [|j]; [lia|]. cbn in Hj. destruct i as [|i].
    + injection Hi as <-. exists 0. split; [done|]. cbn. by inversion 1.
    + cbn in Hi. destruct (IH (x :: seen) i j ltac:(lia) Hi Hj) as (k & Hk & Hg).
      exists (S k). split; [done|]. cbn [take].
      intros [-> | Hin]%elem_of_cons; [|done].
      apply list_elem_of_lookup_2, uniq_elem_of in Hj as [_ Hseen].
      apply Hseen. by left.
Qed.

(** [findFiles] returns every path that [glob] returns for some pattern,
    each of them once, in the order of their first occurrence: of two
    paths of the result, the earlier one occurs in the concatenation of
    the results of [glob] before any occurrence of the later one. *)
Theorem findFiles_each_path_once (glob : string → string → list string)
    (repo : string) (patterns : list string) :
  NoDup (findFiles glob repo patterns)
  ∧ (∀ f, f ∈ findFiles glob repo patterns ↔
          ∃ pattern, pattern ∈ patterns ∧ f ∈ glob pattern repo)
  ∧ findFiles glob repo patterns
      `sublist_of` flat_map (λ pattern, glob pattern repo) patterns
  ∧ (∀ i j f g,
       i < j →
       findFiles glob repo patterns !! i = Some f →
       findFiles glob repo patterns !! j = Some g →
       ∃ k, flat_map (λ pattern, glob pattern repo) patterns !! k = Some f
            ∧ g ∉ take k (flat_map (λ pattern, glob pattern repo) patterns)).
Proof.
  unfold findFiles. split; [apply uniq_NoDup|].
  split; [|split; [apply uniq_sublist|apply uniq_first_occurrences]].
  intros f. rewrite uniq_elem_of, list_elem_of_In, in_flat_map.
  setoid_rewrite <- list_elem_of_In. split.
  - intros [(pattern & Hp & Hf) _]. eauto.
  - intros (pattern & Hp & Hf). split; [eauto|]. by inversion 1.
Qed.

(** ** What the classification pass finds *)

Lemma declarationsIn_Forall (checker : TypeChecker) (sourceFile : SourceFile)
    (node : Node) :
  Forall (λ d, declFile d = sourceFile
               ∧ (kind (declNode d) = FunctionDeclaration
                  ∨ kind (declNode d) = MethodDeclaration)
               ∧ ∃ nm, name (declNode d) = Some nm
                       ∧ getSymbolAtLocation checker nm = Some (declSymbol d))
         (declarationsIn checker sourceFile node).
Proof.
  induction node as [node IH] using Node_children_ind.
  assert (Hbelow : Forall (λ d, declFile d = sourceFile
               ∧ (kind (declNode d) = FunctionDeclaration
                  ∨ kind (declNode d) = MethodDeclaration)
               ∧ ∃ nm, name (declNode d) = Some nm
                       ∧ getSymbolAtLocation checker nm = Some (declSymbol d))
            (flat_map (declarationsIn checker sourceFile) (children node))).
  { apply Forall_flat_map. exact IH. }
  destruct node as [k s e t nm ex ms ds cs]. cbn [declarationsIn children] in *.
  destruct (_ || _) eqn:Hkind; [|exact Hbelow].
  destruct (_ ≫= _) as [symbol|] eqn:Hsym; [|constructor].
  constructor; [|exact Hbelow]. cbn [declFile declNode declSymbol name kind] in *.
  split; [done|]. split.
  - unfold isFunctionDeclaration, isMethodDeclaration in Hkind. cbn in Hkind.
    apply orb_true_iff in Hkind as [H|H]; apply bool_decide_eq_true in H; auto.
  - destruct nm as [nm|]; [|done]. by exists nm.
Qed.

Lemma declarations_Forall (program : Program) :
  Forall (λ d, declFile d ∈ getSourceFiles program
               ∧ isDeclarationFile (declFile d) = false
               ∧ (kind (declNode d) = FunctionDeclaration
                  ∨ kind (declNode d) = MethodDeclaration)
               ∧ ∃ nm, name (declNode d) = Some nm
                       ∧ getSymbolAtLocation (getTypeChecker program) nm
                         = Some (declSymbol d))
         (declarations program).
Proof.
  unfold declarations. apply Forall_flat_map, Forall_forall.
  intros sf Hsf.
  destruct (isDeclarationFile sf) eqn:Hdecl; [constructor|].
  eapply Forall_impl; [apply declarationsIn_Forall|].
  cbn. intros d (-> & Hkind & Hname). auto.
Qed.

Lemma filter_none {A} (P : A → Prop) `{!∀ x, Decision (P x)} (l : list A) :
  Forall (λ x, ¬ P x) l → filter P l = [].
Proof.
  induction 1 as [|x l Hx _ IH]; [done|].
  by rewrite filter_cons_False.
Qed.

Lemma filter_sublist_impl {A} (P Q : A → Prop) `{!∀ x, Decision (P x)}
    `{!∀ x, Decision (Q x)} (l : list A) :
  (∀ x, P x → Q x) → filter P l `sublist_of` filter Q l.
Proof.
  intros HPQ. induction l as [|x l IH]; [done|].
  rewrite !filter_cons. destruct (decide (P x)) as [HP|HP].
  - rewrite decide_True by auto. by apply sublist_skip.
  - destruct (decide (Q x)); [by apply sublist_cons|done].
Qed.

Lemma prefix_app_r (m a b : string) :
  String.prefix m a = true → String.prefix m (a +:+ b) = true.
Proof.
  revert a. induction m as [|c m IH]; intros a.
  { intros _. by destruct (a +:+ b). }
  destruct a as [|c' a]; [done|].
  change (String c' a +:+ b) with (String c' (a +:+ b)).
  cbn [String.prefix]. destruct (Ascii.ascii_dec c c'); [apply IH|done].
Qed.

Lemma includes_app_r (a b m : string) :
  includes a m = true → includes (a +:+ b) m = true.
Proof.
  induction a as [|c a IH]; cbn.
  - rewrite orb_false_r. intros Hm. destruct m; [|done].
    by destruct b.
  - intros [Hp|Hin]%orb_true_iff; apply orb_true_iff.
    + left. by apply (prefix_app_r m (String c a) b).
    + right. by apply IH.
Qed.

(** ** The test-file exemption *)

(** The visit of any node of a file whose name holds [.test.] or [.spec.]
    leaves the findings as they are: nothing declared in a test file is
    reported, whatever the call graph holds. *)
Theorem test_file_never_reported (relative : string → string → string)
    (checker : TypeChecker) (sourceFile : SourceFile) (node : Node) (st : Run) :
  isTestFile sourceFile = true →
  visitDecls relative checker sourceFile node st = st.
Proof.
  intros Htest. rewrite visitDecls_spec. unfold deadFindings.
  rewrite filter_none.
  - destruct st; cbn. by rewrite app_nil_r.
  - eapply Forall_impl; [apply declarationsIn_Forall|].
    cbn. intros d (Hfile & _) [Hroot _]. apply Hroot. right. left.
    by rewrite Hfile.
Qed.

(** The marker is looked for in the whole file name, which is an absolute
    path: when a leading part of the path (a directory, or the path of the
    repository itself) holds [.test.] or [.spec.], every file below it is
    a test file and nothing in it is reported. *)
Theorem test_marker_in_directory_exempts (relative : string → string → string)
    (checker : TypeChecker) (sourceFile : SourceFile) (dir rest : string)
    (node : Node) (st : Run) :
  fileName sourceFile = dir +:+ rest →
  includes dir ".test." = true ∨ includes dir ".spec." = true →
  isTestFile sourceFile = true
  ∧ visitDecls relative checker sourceFile node st = st.
Proof.
  intros Hname Hdir.
  assert (Htest : isTestFile sourceFile = true).
  { unfold isTestFile. rewrite Hname. apply orb_true_iff.
    destruct Hdir as [H|H]; [left|right]; by apply includes_app_r. }
  split; [done|]. rewrite visitDecls_spec. unfold deadFindings.
  rewrite filter_none.
  - destruct st; cbn. by rewrite app_nil_r.
  - eapply Forall_impl; [apply declarationsIn_Forall|].
    cbn. intros d (Hfile & _) [Hroot _]. apply Hroot. right. left.
    by rewrite Hfile.
Qed.

(** ** Declaration files and the order of the files *)

Lemma sites_without_declaration_files (files : list SourceFile) (checker : TypeChecker) :
  sites (mkProgram (filter (λ sf, isDeclarationFile sf = false) files) checker)
  = sites (mkProgram files checker).
Proof.
  unfold sites. cbn [getSourceFiles].
  induction files as [|sf files IH]; [done|].
  rewrite filter_cons. cbn [flat_map].
  destruct (isDeclarationFile sf) eqn:Hd.
  - by rewrite decide_False.
  - rewrite decide_True by done. cbn [flat_map]. by rewrite Hd, IH.
Qed.

Lemma declarations_without_declaration_files (files : list SourceFile)
    (checker : TypeChecker) :
  declarations (mkProgram (filter (λ sf, isDeclarationFile sf = false) files) checker)
  = declarations (mkProgram files checker).
Proof.
  unfold declarations. cbn [getSourceFiles getTypeChecker].
  induction files as [|sf files IH]; [done|].
  rewrite filter_cons. cbn [flat_map].
  destruct (isDeclarationFile sf) eqn:Hd.
  - by rewrite decide_False.
  - rewrite decide_True by done. cbn [flat_map]. by rewrite Hd, IH.
Qed.

(** Declaration files count for nothing: a program and the same program
    without its declaration files give the same call graph and the same
    findings. *)
Theorem declaration_files_ignored (relative : string → string → string)
    (files : list SourceFile) (checker : TypeChecker) (this : DeadCodeAnalyzer)
    (st : Run) :
  buildCallGraph
    (mkProgram (filter (λ sf, isDeclarationFile sf = false) files) checker) this
  = buildCallGraph (mkProgram files checker) this
  ∧ findUnreferenced relative
      (mkProgram (filter (λ sf, isDeclarationFile sf = false) files) checker) st
    = findUnreferenced relative (mkProgram files checker) st.
Proof.
  split.
  - rewrite !buildCallGraph_spec. unfold callEdges.
    by rewrite sites_without_declaration_files.
  - rewrite !findUnreferenced_spec.
    by rewrite declarations_without_declaration_files.
Qed.

Lemma addEdges_Permutation (es es' : list (string * string)) :
  es ≡ₚ es' → ∀ g, addEdges es g = addEdges es' g.
Proof.
  induction 1 as [|e es es' _ IH|e1 e2 es|es1 es2 es3 _ IH1 _ IH2]; intros g.
  - done.
  - cbn [addEdges fold_left]. apply IH.
  - cbn [addEdges fold_left]. by rewrite addEdge_comm.
  - by rewrite IH1, IH2.
Qed.

(** The analysis is of the whole program: the call graph does not depend
    on the order in which the source files are visited, so a call is seen
    whether its file comes before or after the file of the callee, and the
    findings of two orders are the same up to their order. *)
Theorem file_order_irrelevant (relative : string → string → string)
    (checker : TypeChecker) (files files' : list SourceFile)
    (this : DeadCodeAnalyzer) (fs : list DeadCodeFinding) :
  files ≡ₚ files' →
  buildCallGraph (mkProgram files checker) this
  = buildCallGraph (mkProgram files' checker) this
  ∧ findings (findUnreferenced relative (mkProgram files checker)
                (mkRun (buildCallGraph (mkProgram files checker) this) fs))
    ≡ₚ findings (findUnreferenced relative (mkProgram files' checker)
                   (mkRun (buildCallGraph (mkProgram files' checker) this) fs)).
Proof.
  intros Hperm.
  assert (Hgraph : buildCallGraph (mkProgram files checker) this
                   = buildCallGraph (mkProgram files' checker) this).
  { rewrite !buildCallGraph_spec. f_equal. apply addEdges_Permutation.
    unfold callEdges, sites. cbn [getSourceFiles getTypeChecker].
    apply omap_Permutation. by apply Permutation_flat_map. }
  split; [done|]. rewrite !findUnreferenced_spec. cbn [findings self].
  rewrite <- Hgraph. apply Permutation_app_head. unfold deadFindings.
  apply fmap_Permutation, filter_Permutation.
  unfold declarations. cbn [getSourceFiles getTypeChecker].
  by apply Permutation_flat_map.
Qed.

(** ** The call graph only grows *)

Lemma addEdge_subseteq (c r q : string) (g : CallGraph) :
  callersOf g q ⊆ callersOf (addEdge c r g) q.
Proof. rewrite callersOf_addEdge. case_decide; subst; set_solver. Qed.

(** The build pass removes nothing: every key of the graph is still a key
    afterwards, and every caller held for a name is still held. *)
Theorem build_pass_only_adds (program : Program) (this : DeadCodeAnalyzer) :
  dom (callGraph this) ⊆ dom (callGraph (buildCallGraph program this))
  ∧ (∀ q, callersOf (callGraph this) q
          ⊆ callersOf (callGraph (buildCallGraph program this)) q)
  ∧ repoPath (buildCallGraph program this) = repoPath this.
Proof.
  rewrite buildCallGraph_spec. cbn [callGraph repoPath].
  generalize (callEdges program) as es. intros es.
  split; [|split; [|done]].
  - revert this. induction es as [|[c r] es IH]; intros this; [done|].
    cbn [addEdges fold_left fst snd].
    specialize (IH (mkAnalyzer (addEdge c r (callGraph this)) (repoPath this))).
    cbn [callGraph] in IH. etrans; [|exact IH].
    intros k Hk. apply elem_of_dom. apply elem_of_dom in Hk.
    rewrite addEdge_lookup. by case_decide; subst.
  - intros q. rewrite callersOf_addEdges. set_solver.
Qed.

(** The build pass stores no empty set: when every set of the graph has a
    caller, as in a new analyzer, so does every set afterwards, and a name
    is then a key of the graph exactly when it has a caller. *)
Theorem build_pass_keeps_sets_nonempty (program : Program)
    (this : DeadCodeAnalyzer) :
  (∀ q callers, callGraph this !! q = Some callers → callers ≠ ∅) →
  (∀ q callers,
      callGraph (buildCallGraph program this) !! q = Some callers → callers ≠ ∅)
  ∧ (∀ q, is_Some (callGraph (buildCallGraph program this) !! q)
          ↔ callersOf (callGraph (buildCallGraph program this)) q ≠ ∅).
Proof.
  intros Hne.
  assert (Hall : ∀ q callers,
    callGraph (buildCallGraph program this) !! q = Some callers → callers ≠ ∅).
  { rewrite buildCallGraph_spec. cbn [callGraph].
    generalize (callEdges program) as es. intros es.
    destruct this as [g repo]. cbn [callGraph] in *. clear repo.
    revert g Hne. induction es as [|[c r] es IH]; intros g Hne; [exact Hne|].
    cbn [addEdges fold_left fst snd]. apply IH.
    intros q callers. rewrite addEdge_lookup. case_decide; subst.
    - intros [= <-]. set_solver.
    - apply Hne. }
  split; [exact Hall|]. intros q. unfold callersOf.
  destruct (callGraph (buildCallGraph program this) !! q) as [callers|] eqn:Hq.
  - cbn. split; [intros _; by eapply Hall|by eexists].
  - cbn. split; [by intros [? ?]|done].
Qed.

(** ** Runs of the engine *)

Lemma callersOf_new (repo q : string) :
  callersOf (callGraph (newDeadCodeAnalyzer repo)) q = ∅.
Proof. unfold callersOf. cbn. by rewrite lookup_empty. Qed.

Section Runs.

Variable glob : string -> string -> list string.
Variable createProgram : list string -> Program.
Variable relative : string -> string -> string.

(** The call graph is a field of the analyzer that no run clears.  A run
    on an analyzer that has run before can only report less: its findings
    are a subsequence of the findings of a new analyzer on the same
    repository. *)
Theorem reused_analyzer_reports_no_more (this : DeadCodeAnalyzer) :
  fst (analyze glob createProgram relative this)
  `sublist_of`
  fst (analyze glob createProgram relative (newDeadCodeAnalyzer (repoPath this))).
Proof.
  destruct (decide (findFiles glob (repoPath this) filePatterns = [])) as [He|Hne].
  - rewrite (analyze_empty _ _ _ _ He). apply sublist_nil_l.
  - rewrite (analyze_spec _ _ _ _ Hne).
    rewrite (analyze_spec glob createProgram relative
               (newDeadCodeAnalyzer (repoPath this))) by done.
    cbn [fst repoPath newDeadCodeAnalyzer].
    set (program := createProgram _). unfold deadFindings.
    rewrite !repoPath_buildCallGraph. cbn [repoPath].
    apply fmap_sublist, filter_sublist_impl.
    intros d [Hroot Hnone]. split; [done|]. unfold NoIncomingEdge in *.
    rewrite buildCallGraph_spec in *. cbn [callGraph] in *.
    rewrite callersOf_addEdges in *. set_solver.
Qed.

(** On a new analyzer, what is reported can be read off the program: the
    findings are those of the found declarations that are not roots and
    whose qualified name is the callee of no recorded call, that is, of no
    call expression with a resolved callee inside a named function or
    method whose name resolves.  Declarations are told apart by qualified
    name only. *)
Theorem new_analyzer_reports_uncalled (repo : string) :
  findFiles glob repo filePatterns ≠ [] →
  fst (analyze glob createProgram relative (newDeadCodeAnalyzer repo)) =
    findingOf relative repo <$>
      filter (λ d, ¬ IsRoot d ∧
                   Forall (λ e, e.1 ≠ qualifiedName
                            (getTypeChecker
                               (createProgram (findFiles glob repo filePatterns))) d)
                          (callEdges
                             (createProgram (findFiles glob repo filePatterns))))
             (declarations (createProgram (findFiles glob repo filePatterns))).
Proof.
  intros Hfiles.
  rewrite (analyze_spec glob createProgram relative (newDeadCodeAnalyzer repo))
    by done.
  cbn [fst repoPath newDeadCodeAnalyzer]. set (program := createProgram _).
  unfold deadFindings. rewrite repoPath_buildCallGraph. cbn [repoPath].
  f_equal. apply list_filter_iff. intros d. unfold Dead, NoIncomingEdge.
  rewrite buildCallGraph_spec. cbn [callGraph].
  rewrite callersOf_addEdges, callersOf_new.
  split; intros [Hroot Hnone]; (split; [done|]).
  - apply Forall_forall. intros [c r] Hin Hc. cbn [fst] in Hc. subst c.
    assert (Hr : r ∈ (∅ ∪ list_to_set
                   (filter (λ e, e.1 = qualifiedName (getTypeChecker program) d)
                      (callEdges program)).*2 : gset string)).
    { apply elem_of_union_r, elem_of_list_to_set, list_elem_of_fmap.
      exists (qualifiedName (getTypeChecker program) d, r).
      split; [done|]. by apply list_elem_of_filter. }
    rewrite Hnone in Hr. set_solver.
  - apply leibniz_equiv. intros r. split; [|set_solver]. intros Hr. exfalso.
    apply elem_of_union in Hr as [Hr|Hr]; [set_solver|].
    apply elem_of_list_to_set, list_elem_of_fmap in Hr as ([c r'] & _ & Hin).
    apply list_elem_of_filter in Hin as [Hc Hin].
    rewrite Forall_forall in Hnone. by apply (Hnone _ Hin).
Qed.

(** Only named function and method declarations are reported.  Every
    finding of a run is the finding of a function or method declaration
    whose name has a symbol, found in a source file of the program that is
    neither a declaration file nor a test file; its [functionName] is not
    empty and its [filePath] is that file's name relative to the
    repository. *)
Theorem findings_are_named_declarations (this : DeadCodeAnalyzer)
    (f : DeadCodeFinding) :
  f ∈ fst (analyze glob createProgram relative this) →
  ∃ d, d ∈ declarations (programOfRun glob createProgram this)
       ∧ f = findingOf relative (repoPath this) d
       ∧ declFile d ∈ getSourceFiles (programOfRun glob createProgram this)
       ∧ isDeclarationFile (declFile d) = false
       ∧ isTestFile (declFile d) = false
       ∧ (kind (declNode d) = FunctionDeclaration
          ∨ kind (declNode d) = MethodDeclaration)
       ∧ (∃ nm, name (declNode d) = Some nm
                ∧ getSymbolAtLocation
                    (getTypeChecker (programOfRun glob createProgram this)) nm
                  = Some (declSymbol d))
       ∧ functionName f ≠ ""
       ∧ filePath f = relative (repoPath this) (fileName (declFile d)).
Proof.
  intros Hf.
  destruct (decide (findFiles glob (repoPath this) filePatterns = [])) as [He|Hne].
  - rewrite (analyze_empty _ _ _ _ He) in Hf. by inversion Hf.
  - rewrite (analyze_spec _ _ _ _ Hne) in Hf. cbn [fst] in Hf.
    unfold deadFindings in Hf. rewrite repoPath_buildCallGraph in Hf.
    apply list_elem_of_fmap in Hf as (d & -> & Hd).
    apply list_elem_of_filter in Hd as [[Hroot _] Hd].
    pose proof (declarations_Forall (programOfRun glob createProgram this)) as Hall.
    rewrite Forall_forall in Hall.
    destruct (Hall d Hd) as (Hfile & Hdecl & Hkind & Hname).
    exists d. split; [done|]. split; [done|]. split; [done|]. split; [done|].
    split.
    { destruct (isTestFile (declFile d)) eqn:Ht; [|done].
      exfalso. apply Hroot. right. by left. }
    split; [done|]. split; [done|]. split; [|done].
    cbn. unfold nameText. destruct (name (declNode d)) as [nm|]; [|done].
    by case_bool_decide.
Qed.

End Runs.

(** ** The caller of a call *)

(** [getContainingFunction] stops at the nearest function or method
    declaration that has a name, passing over every other node (arrow
    functions, function expressions, classes, unnamed function
    declarations) on the way up.  The caller is the symbol of that name;
    when that name has no symbol the search ends without a caller and no
    outer function is tried.  When no such declaration encloses the node,
    there is no caller. *)
Theorem containing_function_is_nearest_named (checker : TypeChecker)
    (below : list Node) :
  Forall (λ n, (isFunctionDeclaration n || isMethodDeclaration n) = false
               ∨ name n = None) below →
  getContainingFunction checker below = None
  ∧ ∀ current nm parents,
      (isFunctionDeclaration current || isMethodDeclaration current) = true →
      name current = Some nm →
      getContainingFunction checker (below ++ current :: parents)
      = getSymbolAtLocation checker nm.
Proof.
  induction 1 as [|n below Hn _ [IHnone IHsome]]; cbn [getContainingFunction app].
  - split; [done|]. intros current nm parents -> ->. done.
  - destruct Hn as [-> | Hname].
    + split; [done|]. intros. by apply IHsome.
    + rewrite Hname. destruct (_ || _); (split; [done|]);
        intros; by apply IHsome.
Qed.

(** ** The comparison loop of the duplicate analyzer *)

Section DuplicateLoop.

Import Duplicate.

Variable checkSimilarity : nat -> nat -> CodeBlock -> CodeBlock -> option Similarity.

Lemma compare_spec (i j : nat) (block1 block2 : CodeBlock) (st : Loop) :
  compare checkSimilarity i j block1 block2 st =
  {| findings := findings st
       ++ option_list (findingOfPair checkSimilarity (i, j, block1, block2));
     calls := calls st ++ option_list (callOfPair (i, j, block1, block2)) |}.
Proof.
  unfold compare, findingOfPair, callOfPair. cbn [fst snd].
  case_bool_decide.
  { destruct st; cbn. by rewrite !app_nil_r. }
  destruct (checkSimilarity i j block1 block2) as [result|]; cbn.
  - destruct (js.gt _ _); cbn; [done|]. by rewrite app_nil_r.
  - by rewrite app_nil_r.
Qed.

Lemma inner_spec (i : nat) (block1 : CodeBlock) (rest : list CodeBlock) :
  ∀ j st,
    inner checkSimilarity i j block1 rest st =
    {| findings := findings st
         ++ omap (findingOfPair checkSimilarity) (innerPairs i j block1 rest);
       calls := calls st ++ omap callOfPair (innerPairs i j block1 rest) |}.
Proof.
  induction rest as [|block2 rest IH]; intros j st.
  - destruct st; cbn. by rewrite !app_nil_r.
  - cbn [inner innerPairs]. rewrite IH, compare_spec. cbn [findings calls].
    rewrite <- !app_assoc. f_equal.
    + f_equal. cbn [omap list_omap]. by destruct (findingOfPair _ _).
    + f_equal. cbn [omap list_omap]. by destruct (callOfPair _).
Qed.

Lemma outer_spec (blocks : list CodeBlock) :
  ∀ i st,
    outer checkSimilarity i blocks st =
    {| findings := findings st
         ++ omap (findingOfPair checkSimilarity) (outerPairs i blocks);
       calls := calls st ++ omap callOfPair (outerPairs i blocks) |}.
Proof.
  induction blocks as [|block1 rest IH]; intros i st.
  - destruct st; cbn. by rewrite !app_nil_r.
  - cbn [outer outerPairs]. rewrite IH, inner_spec. cbn [findings calls].
    by rewrite !omap_app, !app_assoc.
Qed.

End DuplicateLoop.

Lemma innerPairs_elem_of (i j : nat) (block1 : Duplicate.CodeBlock)
    (rest : list Duplicate.CodeBlock) (p : nat * nat * Duplicate.CodeBlock * Duplicate.CodeBlock) :
  p ∈ Duplicate.innerPairs i j block1 rest ↔
  ∃ k, rest !! k = Some p.2 ∧ p.1 = (i, j + k, block1).
Proof.
  revert j. induction rest as [|block2 rest IH]; intros j; cbn.
  - split; [by inversion 1|]. by intros (k & Hk & _).
  - rewrite elem_of_cons, IH. split.
    + intros [->|(k & Hk & Hp)].
      * exists 0. cbn. split; [done|]. do 2 f_equal. lia.
      * exists (S k). cbn. split; [done|]. rewrite Hp. do 2 f_equal. lia.
    + intros ([|k] & Hk & Hp); cbn in Hk.
      * left. destruct p as [[[i' j'] b1] b2]. cbn in *.
        injection Hk as <-. injection Hp as -> -> ->. do 3 f_equal. lia.
      * right. exists k. split; [done|]. rewrite Hp. do 2 f_equal. lia.
Qed.

Lemma outerPairs_elem_of (i : nat) (blocks : list Duplicate.CodeBlock)
    (p : nat * nat * Duplicate.CodeBlock * Duplicate.CodeBlock) :
  p ∈ Duplicate.outerPairs i blocks ↔
  ∃ a b, a < b ∧ blocks !! a = Some p.1.2 ∧ blocks !! b = Some p.2
         ∧ p.1.1 = (i + a, i + b).
Proof.
  revert i. induction blocks as [|block1 rest IH]; intros i; cbn.
  - split; [by inversion 1|]. by intros (a & b & _ & Ha & _).
  - rewrite elem_of_app, innerPairs_elem_of, IH. split.
    + intros [(k & Hk & Hp)|(a & b & Hab & Ha & Hb & Hp)].
      * exists 0, (S k). destruct p as [[[i' j'] b1] b2]. cbn in *.
        injection Hp as -> -> ->. repeat split; try done; try lia.
        f_equal; lia.
      * exists (S a), (S b). cbn. repeat split; try done; try lia.
        rewrite Hp. f_equal; lia.
    + intros ([|a] & [|b] & Hab & Ha & Hb & Hp); try lia; cbn in Ha, Hb.
      * left. exists b. split; [done|].
        destruct p as [[[i' j'] b1] b2]. cbn in *.
        injection Ha as <-. injection Hp as -> ->. do 2 f_equal; lia.
      * right. exists a, b. repeat split; try done; try lia.
        rewrite Hp. f_equal; lia.
Qed.

Lemma length_innerPairs (i j : nat) (block1 : Duplicate.CodeBlock)
    (rest : list Duplicate.CodeBlock) :
  length (Duplicate.innerPairs i j block1 rest) = length rest.
Proof. revert j. induction rest as [|b rest IH]; intros j; cbn; [done|]. by rewrite IH. Qed.

Lemma length_outerPairs (i : nat) (blocks : list Duplicate.CodeBlock) :
  2 * length (Duplicate.outerPairs i blocks) = length blocks * (length blocks - 1).
Proof.
  revert i. induction blocks as [|b rest IH]; intros i; cbn [Duplicate.outerPairs]; [done|].
  rewrite length_app, length_innerPairs. specialize (IH (S i)).
  cbn [length]. destruct (length rest) as [|n]; cbn in *; nia.
Qed.

Lemma length_omap_le {A B} (f : A → option B) (l : list A) :
  length (omap f l) ≤ length l.
Proof. induction l as [|x l IH]; cbn; [done|]. destruct (f x); cbn; lia. Qed.

Lemma length_omap_mono {A B C} (f : A → option B) (g : A → option C) (l : list A) :
  (∀ x, is_Some (f x) → is_Some (g x)) → length (omap f l) ≤ length (omap g l).
Proof.
  intros Hfg. induction l as [|x l IH]; cbn; [done|].
  destruct (f x) eqn:Hf; cbn.
  - destruct (Hfg x) as [y Hy]; [by rewrite Hf|]. rewrite Hy. cbn. lia.
  - destruct (g x); cbn; lia.
Qed.

Lemma omap_sublist_fmap {A B} (f : A → option B) (g : A → B) (l : list A) :
  (∀ x y, f x = Some y → y = g x) → omap f l `sublist_of` g <$> l.
Proof.
  intros Hfg. induction l as [|x l IH]; cbn; [done|].
  destruct (f x) as [y|] eqn:Hf.
  - rewrite (Hfg x y Hf). by apply sublist_skip.
  - by apply sublist_cons.
Qed.

Lemma innerPairs_positions_NoDup (i : nat) (block1 : Duplicate.CodeBlock)
    (rest : list Duplicate.CodeBlock) :
  ∀ j, NoDup ((λ p, p.1.1) <$> Duplicate.innerPairs i j block1 rest).
Proof.
  induction rest as [|block2 rest IHr]; intros j; cbn; [constructor|].
  apply NoDup_cons. split; [|apply IHr].
  intros (p & Hp & Hin)%list_elem_of_fmap.
  apply innerPairs_elem_of in Hin as (k & _ & Hk).
  rewrite Hk in Hp. cbn in Hp. injection Hp. lia.
Qed.

Lemma outerPairs_positions_NoDup (i : nat) (blocks : list Duplicate.CodeBlock) :
  NoDup ((λ p, p.1.1) <$> Duplicate.outerPairs i blocks).
Proof.
  revert i. induction blocks as [|block1 rest IH]; intros i;
    cbn [Duplicate.outerPairs]; [constructor|].
  rewrite fmap_app. apply NoDup_app.
  split; [apply innerPairs_positions_NoDup|]. split; [|apply IH].
  intros ij (p & -> & Hin)%list_elem_of_fmap (p' & Hp' & Hin')%list_elem_of_fmap.
  apply innerPairs_elem_of in Hin as (k & _ & Hk).
  apply outerPairs_elem_of in Hin' as (a & b & _ & _ & _ & Hab).
  rewrite Hk, Hab in Hp'. cbn in Hp'. injection Hp'. lia.
Qed.

Section DuplicateAnalyzer.

Import Duplicate.

Variable glob : string -> string -> list string.
Variable extractCodeBlocks : list string -> list CodeBlock.
Variable checkSimilarity : nat -> nat -> CodeBlock -> CodeBlock -> option Similarity.

(** The findings of the duplicate analyzer are exactly the pairs of two
    of the first fifty extracted blocks, the first before the second, that
    sit in different files and whose comparison succeeded with a score
    above 0.75.  A pair whose comparison throws gives no finding and stops
    nothing; blocks after the fiftieth are never looked at. *)
Theorem duplicate_findings_are_qualifying_pairs (repo : string)
    (files : option (list string)) (f : DuplicateFinding) :
  f ∈ findings (Duplicate.analyze glob extractCodeBlocks checkSimilarity repo files)
  ↔ ∃ i j block1 block2 result,
      codeBlocksOf glob extractCodeBlocks repo files !! i = Some block1
      ∧ codeBlocksOf glob extractCodeBlocks repo files !! j = Some block2
      ∧ i < j ∧ j < 50
      ∧ file block1 ≠ file block2
      ∧ checkSimilarity i j block1 block2 = Some result
      ∧ js.gt (score result) (js.Finite (3 # 4)) = true
      ∧ f = {| file1 := file block1;
               file2 := file block2;
               similarity := score result;
               codeBlock1 := code block1;
               codeBlock2 := code block2;
               recommendation := advice result |}.
Proof.
  unfold Duplicate.analyze. rewrite outer_spec. cbn [findings app].
  rewrite list_elem_of_omap. split.
  - intros ([[[i j] b1] b2] & Hin & Hf).
    apply outerPairs_elem_of in Hin as (a & b & Hab & Ha & Hb & Hp).
    cbn in Ha, Hb, Hp. injection Hp as -> ->.
    apply lookup_take_Some in Ha as [Ha _].
    apply lookup_take_Some in Hb as [Hb Hb50].
    unfold findingOfPair in Hf. cbn [fst snd] in Hf.
    case_bool_decide as Hfile; [done|].
    destruct (checkSimilarity a b b1 b2) as [result|] eqn:Hcheck; [|done].
    destruct (js.gt _ _) eqn:Hgt; [|done]. injection Hf as <-.
    exists a, b, b1, b2, result. done.
  - intros (i & j & b1 & b2 & result & Hi & Hj & Hij & Hj50 & Hfile & Hcheck
            & Hgt & ->).
    exists (i, j, b1, b2). split.
    + apply outerPairs_elem_of. exists i, j. cbn.
      split; [done|]. split; [apply lookup_take_Some; split; [done|lia]|].
      split; [by apply lookup_take_Some|done].
    + unfold findingOfPair. cbn [fst snd].
      rewrite bool_decide_eq_false_2 by done. by rewrite Hcheck, Hgt.
Qed.

(** The requests to the language model.  [checkSimilarity] is called once
    for each pair of two of the first fifty blocks that sit in different
    files, and for no other pair: at most 1225 times in a run, never for
    two blocks of one file, and there are no more findings than calls. *)
Theorem duplicate_comparisons_bounded (repo : string)
    (files : option (list string)) :
  NoDup (calls (Duplicate.analyze glob extractCodeBlocks checkSimilarity repo files))
  ∧ (∀ i j,
       (i, j) ∈ calls (Duplicate.analyze glob extractCodeBlocks checkSimilarity
                         repo files)
       ↔ ∃ block1 block2,
           codeBlocksOf glob extractCodeBlocks repo files !! i = Some block1
           ∧ codeBlocksOf glob extractCodeBlocks repo files !! j = Some block2
           ∧ i < j ∧ j < 50
           ∧ file block1 ≠ file block2)
  ∧ length (calls (Duplicate.analyze glob extractCodeBlocks checkSimilarity
                     repo files)) ≤ 1225
  ∧ length (findings (Duplicate.analyze glob extractCodeBlocks checkSimilarity
                        repo files))
    ≤ length (calls (Duplicate.analyze glob extractCodeBlocks checkSimilarity
                       repo files)).
Proof.
  unfold Duplicate.analyze. rewrite outer_spec. cbn [findings calls app].
  set (blocks := codeBlocksOf glob extractCodeBlocks repo files).
  split; [|split; [|split]].
  - eapply sublist_NoDup; [apply (outerPairs_positions_NoDup 0 (take 50 blocks))|].
    apply omap_sublist_fmap. intros p ij. unfold callOfPair.
    case_bool_decide; [done|]. by intros [= <-].
  - intros i j. rewrite list_elem_of_omap. split.
    + intros ([[[i' j'] b1] b2] & Hin & Hc).
      apply outerPairs_elem_of in Hin as (a & b & Hab & Ha & Hb & Hp).
      cbn in Ha, Hb, Hp. injection Hp as -> ->.
      apply lookup_take_Some in Ha as [Ha _].
      apply lookup_take_Some in Hb as [Hb Hb50].
      unfold callOfPair in Hc. cbn [fst snd] in Hc.
      case_bool_decide as Hfile; [done|]. injection Hc as <- <-.
      exists b1, b2. done.
    + intros (b1 & b2 & Hi & Hj & Hij & Hj50 & Hfile).
      exists (i, j, b1, b2). split.
      * apply outerPairs_elem_of. exists i, j. cbn.
        split; [done|]. split; [apply lookup_take_Some; split; [done|lia]|].
        split; [by apply lookup_take_Some|done].
      * unfold callOfPair. cbn [fst snd]. by rewrite bool_decide_eq_false_2.
  - etrans; [apply length_omap_le|].
    pose proof (length_outerPairs 0 (take 50 blocks)) as Hlen.
    pose proof (length_take blocks 50) as Htake.
    assert (length (take 50 blocks) ≤ 50) by lia. nia.
  - apply length_omap_mono. intros p. unfold findingOfPair, callOfPair.
    case_bool_decide; [by intros [? ?]|]. by eexists.
Qed.

End DuplicateAnalyzer.

(** ** Splitting and joining strings *)

Lemma append_assoc (a b c : string) : (a +:+ b) +:+ c = a +:+ (b +:+ c).
Proof.
  induction a as [|x a IH]; [done|].
  change (String x (a +:+ b) +:+ c = String x (a +:+ (b +:+ c))).
  change (String x ((a +:+ b) +:+ c) = String x (a +:+ (b +:+ c))).
  by rewrite IH.
Qed.

Lemma prefix_append (a b : string) : String.prefix a (a +:+ b) = true.
Proof.
  induction a as [|x a IH].
  - by destruct b.
  - change (String x a +:+ b) with (String x (a +:+ b)). cbn [String.prefix].
    by destruct (Ascii.ascii_dec x x).
Qed.

Lemma prefix_refl (a : string) : String.prefix a a = true.
Proof.
  induction a as [|x a IH]; [done|]. cbn [String.prefix].
  by destruct (Ascii.ascii_dec x x).
Qed.

Lemma split_nonempty (sep : ascii) (s : string) :
  ∃ part parts, js.split sep s = part :: parts.
Proof.
  induction s as [|c s (part & parts & IH)]; cbn; [by eexists _, _|].
  case_bool_decide; [by eexists _, _|]. rewrite IH. by eexists _, _.
Qed.

Lemma join_split (sep : ascii) (s : string) : js.join sep (js.split sep s) = s.
Proof.
  induction s as [|c s IH]; [done|]. cbn [js.split].
  destruct (split_nonempty sep s) as (part & parts & Hs). rewrite Hs in *.
  case_bool_decide as Hc.
  - subst c.
    change (js.join sep ("" :: part :: parts))
      with (String sep (js.join sep (part :: parts))).
    by rewrite IH.
  - rewrite <- IH. by destruct parts.
Qed.

Lemma split_free_cons (sep c : ascii) (s : string) :
  js.split sep (String c s) = [String c s] ↔ c ≠ sep ∧ js.split sep s = [s].
Proof.
  cbn. destruct (split_nonempty sep s) as (part & parts & Hs). rewrite Hs.
  case_bool_decide as Hc; split.
  - intros [=].
  - by intros [? _].
  - intros [= -> ->]. done.
  - by intros [_ [= -> ->]].
Qed.

Lemma split_parts_free (sep : ascii) (s : string) :
  Forall (λ part, js.split sep part = [part]) (js.split sep s).
Proof.
  induction s as [|c s IH]; cbn; [by repeat constructor|].
  destruct (split_nonempty sep s) as (part & parts & Hs). rewrite Hs in *.
  apply Forall_cons in IH as [Hpart Hparts].
  case_bool_decide as Hc.
  - constructor; [done|]. by constructor.
  - constructor; [|done]. by apply split_free_cons.
Qed.

Lemma split_append_free (sep : ascii) (part s : string) :
  js.split sep part = [part] →
  js.split sep (part +:+ String sep s) = part :: js.split sep s.
Proof.
  induction part as [|c part IH]; intros Hfree.
  - change ("" +:+ String sep s) with (String sep s). cbn [js.split].
    by rewrite bool_decide_eq_true_2.
  - apply split_free_cons in Hfree as [Hc Hfree].
    change (String c part +:+ String sep s) with (String c (part +:+ String sep s)).
    cbn [js.split]. rewrite bool_decide_eq_false_2 by done. by rewrite IH.
Qed.

Lemma split_join (sep : ascii) (parts : list string) :
  parts ≠ [] → Forall (λ part, js.split sep part = [part]) parts →
  js.split sep (js.join sep parts) = parts.
Proof.
  induction parts as [|part parts IH]; [done|]. intros _ Hfree.
  apply Forall_cons in Hfree as [Hpart Hparts].
  destruct parts as [|part' parts]; [done|].
  cbn [js.join]. rewrite split_append_free by done. f_equal. by apply IH.
Qed.

Lemma prefix_empty (s : string) : String.prefix "" s = true.
Proof. by destruct s. Qed.

Lemma prefix_append_both (a x y : string) :
  String.prefix x y = true → String.prefix (a +:+ x) (a +:+ y) = true.
Proof.
  intros Hxy. induction a as [|c a IH]; [done|].
  change (String.prefix (String c (a +:+ x)) (String c (a +:+ y)) = true).
  cbn [String.prefix]. by destruct (Ascii.ascii_dec c c).
Qed.

Lemma join_take_prefix (sep : ascii) (n : nat) (parts : list string) :
  String.prefix (js.join sep (take n parts)) (js.join sep parts) = true.
Proof.
  revert n. induction parts as [|part parts IH]; intros n.
  - by destruct n.
  - destruct n as [|n]; [apply prefix_empty|].
    cbn [take]. destruct parts as [|part' parts].
    + rewrite take_nil. apply prefix_refl.
    + destruct n as [|n].
      * cbn [take js.join]. apply prefix_append.
      * specialize (IH (S n)). cbn [take] in *.
        change (js.join sep (part :: part' :: take n parts))
          with (part +:+ String sep (js.join sep (part' :: take n parts))).
        change (js.join sep (part :: part' :: parts))
          with (part +:+ String sep (js.join sep (part' :: parts))).
        apply prefix_append_both. cbn [String.prefix].
        by destruct (Ascii.ascii_dec sep sep).
Qed.

Lemma startsWith_join (sep c : ascii) (part : string) (parts : list string) :
  c ≠ sep →
  js.startsWith (js.join sep (part :: parts)) (String c "")
  = js.startsWith part (String c "").
Proof.
  intros Hc. unfold js.startsWith.
  destruct part as [|c' part].
  - destruct parts as [|part' parts]; [done|].
    change (js.join sep ("" :: part' :: parts))
      with (String sep (js.join sep (part' :: parts))).
    cbn [String.prefix]. by destruct (Ascii.ascii_dec c sep).
  - destruct parts as [|part' parts]; [done|].
    change (js.join sep (String c' part :: part' :: parts))
      with (String c' (part +:+ String sep (js.join sep (part' :: parts)))).
    cbn [String.prefix]. destruct (Ascii.ascii_dec c c'); [|done].
    by rewrite !prefix_empty.
Qed.

(** ** The package of an import path *)

(** The package name computed from an import or require path is a leading
    part of the path; computing it again from the name changes nothing,
    so a dependency named as package.json names it is matched by its own
    name; for a path that does not start with [@] the name holds no
    slash, and for a scoped path it holds at most one. *)
Theorem packageOf_is_package_part (importPath : string) :
  String.prefix (Dependency.packageOf importPath) importPath = true
  ∧ Dependency.packageOf (Dependency.packageOf importPath)
    = Dependency.packageOf importPath
  ∧ (if js.startsWith importPath "@"
     then length (js.split "/" (Dependency.packageOf importPath)) ≤ 2
     else js.split "/" (Dependency.packageOf importPath)
          = [Dependency.packageOf importPath]).
Proof.
  pose proof (join_split "/" importPath) as Hjoin.
  pose proof (split_parts_free "/" importPath) as Hfree.
  destruct (split_nonempty "/" importPath) as (part & parts & Hs).
  rewrite Hs in Hjoin, Hfree. apply Forall_cons in Hfree as [Hpart Hparts].
  assert (Hat : js.startsWith importPath "@" = js.startsWith part "@").
  { rewrite <- Hjoin. by apply startsWith_join. }
  destruct (js.startsWith importPath "@") eqn:Hscoped.
  - assert (Hpkg : Dependency.packageOf importPath
                   = js.join "/" (part :: take 1 parts)).
    { unfold Dependency.packageOf. by rewrite Hscoped, Hs. }
    assert (Hsplit : js.split "/" (js.join "/" (part :: take 1 parts))
                     = part :: take 1 parts).
    { apply split_join; [done|]. constructor; [done|]. by apply Forall_take. }
    rewrite Hpkg. split; [|split].
    + rewrite <- Hjoin. apply (join_take_prefix "/" 2 (part :: parts)).
    + unfold Dependency.packageOf.
      rewrite startsWith_join, <- Hat by done. rewrite Hsplit.
      change (take 2 (part :: take 1 parts)) with (part :: take 1 (take 1 parts)).
      by rewrite take_take.
    + rewrite Hsplit. cbn [length]. rewrite length_take. lia.
  - assert (Hpkg : Dependency.packageOf importPath = part).
    { unfold Dependency.packageOf. by rewrite Hscoped, Hs. }
    rewrite Hpkg. split; [|split; [|done]].
    + rewrite <- Hjoin. destruct parts; [apply prefix_refl|apply prefix_append].
    + unfold Dependency.packageOf. by rewrite <- Hat, Hpart.
Qed.

Example split_examples :
  js.split "/" "" = [""]
  ∧ js.split "/" "a//b" = ["a"; ""; "b"]
  ∧ js.split "/" "/a/" = [""; "a"; ""]
  ∧ js.join "/" ["@scope"; "pkg"] = "@scope/pkg".
Proof. repeat split. Qed.

Example packageOf_examples :
  Dependency.packageOf "lodash/fp" = "lodash"
  ∧ Dependency.packageOf "@scope/pkg/lib/x" = "@scope/pkg"
  ∧ Dependency.packageOf "@scope" = "@scope"
  ∧ Dependency.packageOf "./utils/astParser" = "."
  ∧ Dependency.packageOf "fs" = "fs".
Proof. repeat split. Qed.

(** ** The packages a repository uses *)

Lemma fold_add_packages (paths : list string) (used : gset string) (pkg : string) :
  pkg ∈ fold_left (λ acc p, acc ∪ {[Dependency.packageOf p]}) paths used
  ↔ pkg ∈ used ∨ ∃ p, p ∈ paths ∧ pkg = Dependency.packageOf p.
Proof.
  revert used. induction paths as [|p paths IH]; intros used; cbn [fold_left].
  - split; [by left|]. intros [H|(p & Hp & _)]; [done|by inversion Hp].
  - rewrite IH, elem_of_union, elem_of_singleton. split.
    + intros [[H | ->]|(p' & Hp' & ->)]; [by left| |].
      * right. exists p. split; [by left|done].
      * right. exists p'. split; [by right|done].
    + intros [H|(p' & [-> | Hp']%elem_of_cons & ->)]; [by left; left|by left; right|].
      right. by exists p'.
Qed.

Section UsedDependencies.

Variable glob : string -> string -> list string.
Variable readFileSync : string -> option string.
Variable importPaths : string -> list string.
Variable requirePaths : string -> list string.

Lemma scanFile_elem_of (file : string) (used : gset string) (pkg : string) :
  pkg ∈ Dependency.scanFile readFileSync importPaths requirePaths file used
  ↔ pkg ∈ used
    ∨ ∃ content p, readFileSync file = Some content
                   ∧ p ∈ importPaths content ++ requirePaths content
                   ∧ pkg = Dependency.packageOf p.
Proof.
  unfold Dependency.scanFile. destruct (readFileSync file) as [content|].
  - rewrite !fold_add_packages. setoid_rewrite elem_of_app. split.
    + intros [[H|(p & Hp & ->)]|(p & Hp & ->)]; [by left| |];
        right; exists content, p; auto.
    + intros [H|(c & p & [= <-] & [Hp|Hp] & ->)]; [by left; left| |].
      * left. right. by exists p.
      * right. by exists p.
  - split; [by left|]. by intros [H|(c & p & [=] & _)].
Qed.

(** A package counts as used exactly when some file that was found and
    could be read holds an import or require path whose package it is.  A
    file that cannot be read is passed over and adds nothing. *)
Theorem used_dependencies_are_packages_of_paths (repo pkg : string) :
  pkg ∈ Dependency.findUsedDependencies glob readFileSync importPaths
          requirePaths repo
  ↔ ∃ file content p,
      file ∈ findFiles glob repo ["**/*.js"; "**/*.ts"; "**/*.jsx"; "**/*.tsx"]
      ∧ readFileSync file = Some content
      ∧ p ∈ importPaths content ++ requirePaths content
      ∧ pkg = Dependency.packageOf p.
Proof.
  unfold Dependency.findUsedDependencies.
  generalize (findFiles glob repo ["**/*.js"; "**/*.ts"; "**/*.jsx"; "**/*.tsx"]).
  intros files.
  assert (H : ∀ used,
    pkg ∈ fold_left (λ acc file,
                       Dependency.scanFile readFileSync importPaths requirePaths
                         file acc) files used
    ↔ pkg ∈ used
      ∨ ∃ file content p, file ∈ files ∧ readFileSync file = Some content
          ∧ p ∈ importPaths content ++ requirePaths content
          ∧ pkg = Dependency.packageOf p).
  { induction files as [|file files IH]; intros used; cbn [fold_left].
    - split; [by left|]. intros [H|(f & c & p & Hf & _)]; [done|by inversion Hf].
    - rewrite IH, scanFile_elem_of. split.
      + intros [[H|(c & p & Hr & Hp & ->)]|(f & c & p & Hf & Hr & Hp & ->)].
        * by left.
        * right. exists file, c, p. split; [by left|done].
        * right. exists f, c, p. split; [by right|done].
      + intros [H|(f & c & p & [-> | Hf]%elem_of_cons & Hr & Hp & ->)].
        * by left; left.
        * left. right. by exists c, p.
        * right. by exists f, c, p. }
  rewrite H. split; [|by right]. intros [Hempty|Hex]; [set_solver|done].
Qed.

End UsedDependencies.

(** ** Scores that count findings *)

(** The duplicate score starts at 100, loses 5 for each finding and stays
    at 40 from twelve findings on; the dependency score loses 3 for each
    finding and stays at 60 from fourteen on.  More findings never raise
    a score, and the lower clamp at 0 is never reached. *)
Theorem count_scores_bounded {A B : Type} (duplicates : list A)
    (dependencies : list B) :
  (Metrics.scoreDuplicates duplicates
   = 100 - 5 * Z.min (Z.of_nat (length duplicates)) 12)%Z
  ∧ (40 ≤ Metrics.scoreDuplicates duplicates ≤ 100)%Z
  ∧ (Metrics.scoreDependencies dependencies
     = 100 - Z.min (3 * Z.of_nat (length dependencies)) 40)%Z
  ∧ (60 ≤ Metrics.scoreDependencies dependencies ≤ 100)%Z
  ∧ (∀ more : list A,
       (Metrics.scoreDuplicates (duplicates ++ more)
        ≤ Metrics.scoreDuplicates duplicates)%Z)
  ∧ (∀ more : list B,
       (Metrics.scoreDependencies (dependencies ++ more)
        ≤ Metrics.scoreDependencies dependencies)%Z).
Proof.
  unfold Metrics.scoreDuplicates, Metrics.scoreDependencies.
  repeat split; try lia; intros more; rewrite length_app; lia.
Qed.

(** ** The further properties at the small programs *)

Lemma test_file_never_reported_fixture :
  isTestFile MoreExamples.fixtureFile = true
  ∧ visitDecls Examples.relative Examples.checker MoreExamples.fixtureFile
      (sfNode MoreExamples.fixtureFile) (mkRun Examples.analyzer [])
    = mkRun Examples.analyzer [].
Proof.
  split; [reflexivity|].
  apply (test_file_never_reported Examples.relative Examples.checker
           MoreExamples.fixtureFile).
  reflexivity.
Defined.

Lemma test_marker_in_directory_exempts_checkout :
  isTestFile MoreExamples.checkoutFile = true
  ∧ visitDecls Examples.relative Examples.checker MoreExamples.checkoutFile
      Examples.appRoot (mkRun Examples.analyzer [])
    = mkRun Examples.analyzer [].
Proof.
  apply (test_marker_in_directory_exempts Examples.relative Examples.checker
           MoreExamples.checkoutFile "/work/app.test.v2" "/src/app.ts").
  - reflexivity.
  - left. reflexivity.
Defined.

Lemma file_order_irrelevant_swap :
  buildCallGraph (mkProgram [Examples.appFile; Examples.loopFile] Examples.checker)
    Examples.analyzer
  = buildCallGraph (mkProgram [Examples.loopFile; Examples.appFile] Examples.checker)
      Examples.analyzer.
Proof.
  apply (file_order_irrelevant Examples.relative Examples.checker
           [Examples.appFile; Examples.loopFile]
           [Examples.loopFile; Examples.appFile] Examples.analyzer []).
  apply perm_swap.
Defined.

Lemma build_pass_keeps_sets_nonempty_new :
  (∀ q callers, callGraph Examples.analyzer !! q = Some callers → callers ≠ ∅)
  ∧ (∀ q callers,
       callGraph (buildCallGraph Examples.twiceProgram Examples.analyzer) !! q
       = Some callers → callers ≠ ∅).
Proof.
  assert (H : ∀ q callers,
            callGraph Examples.analyzer !! q = Some callers → callers ≠ ∅).
  { intros q callers Hq. cbn in Hq. by rewrite lookup_empty in Hq. }
  split; [exact H|].
  apply (build_pass_keeps_sets_nonempty Examples.twiceProgram Examples.analyzer H).
Defined.

Lemma new_analyzer_reports_uncalled_app :
  findFiles (Examples.globOf ["/repo/src/app.ts"]) "/repo" filePatterns ≠ []
  ∧ fst (Examples.runOn "/repo/src/app.ts" Examples.appProgram) =
      findingOf Examples.relative "/repo" <$>
        filter (λ d, ¬ IsRoot d ∧
                     Forall (λ e, e.1 ≠ qualifiedName Examples.checker d)
                            (callEdges Examples.appProgram))
               (declarations Examples.appProgram).
Proof.
  split; [by vm_compute|].
  apply (new_analyzer_reports_uncalled (Examples.globOf ["/repo/src/app.ts"])
           (fun _ => Examples.appProgram) Examples.relative "/repo").
  by vm_compute.
Defined.

Lemma findings_are_named_declarations_app :
  Examples.findingAt "src/app.ts" "helper" 1 1
    ∈ fst (Examples.runOn "/repo/src/app.ts" Examples.appProgram)
  ∧ ∃ d, d ∈ declarations Examples.appProgram
         ∧ Examples.findingAt "src/app.ts" "helper" 1 1
           = findingOf Examples.relative "/repo" d
         ∧ (kind (declNode d) = FunctionDeclaration
            ∨ kind (declNode d) = MethodDeclaration).
Proof.
  assert (H : Examples.findingAt "src/app.ts" "helper" 1 1
                ∈ fst (Examples.runOn "/repo/src/app.ts" Examples.appProgram)).
  { vm_compute. left. }
  split; [exact H|].
  destruct (findings_are_named_declarations
              (Examples.globOf ["/repo/src/app.ts"]) (fun _ => Examples.appProgram)
              Examples.relative Examples.analyzer _ H)
    as (d & Hd & Hf & _ & _ & _ & Hkind & _).
  exists d. split; [exact Hd|]. split; [exact Hf|exact Hkind].
Defined.

Lemma containing_function_is_nearest_named_arrow :
  getContainingFunction Examples.checker
    [MoreExamples.arrowCall; MoreExamples.arrowFunction;
     MoreExamples.arrowStatement; MoreExamples.outerBody;
     MoreExamples.outerDecl]
  = Some (mkSymbol 0 "outer").
Proof.
  destruct (containing_function_is_nearest_named Examples.checker
              [MoreExamples.arrowCall; MoreExamples.arrowFunction;
               MoreExamples.arrowStatement; MoreExamples.outerBody])
    as [_ Hnearest].
  - repeat constructor.
  - apply (Hnearest MoreExamples.outerDecl (Examples.ident 9 "outer") []);
      reflexivity.
Defined.

(** ** The engine's checks and the roots of the specification *)

Lemma isExported_iff (node : Node) : isExported node = true ↔ ExportedItself node.
Proof.
  unfold isExported, ExportedItself. destruct (modifiers node) as [ms|].
  - rewrite existsb_exists. split.
    + intros (m & Hm%list_elem_of_In & Hk%bool_decide_eq_true). by exists ms, m.
    + intros (ms' & m & [= <-] & Hm & Hk). exists m.
      split; [by apply list_elem_of_In|by apply bool_decide_eq_true].
  - split; [done|]. by intros (ms & m & [=] & _).
Qed.

Lemma hasDecorators_Annotated (node : Node) :
  hasDecorators node = true → Annotated node.
Proof.
  unfold hasDecorators, Annotated. destruct (decorators node) as [ds|]; [|done].
  intros Hlen%bool_decide_eq_true. destruct ds as [|d ds]; [cbn in Hlen; lia|].
  left. exists (d :: ds), d. split; [done|by left].
Qed.

Lemma prefix_iff (marker path : string) :
  String.prefix marker path = true ↔ ∃ after, path = marker +:+ after.
Proof.
  revert path. induction marker as [|c marker IH]; intros path.
  - rewrite prefix_empty. split; [|done]. intros _. by exists path.
  - destruct path as [|c' path].
    + split; [done|]. by intros (after & [=]).
    + cbn [String.prefix]. destruct (Ascii.ascii_dec c c') as [<-|Hc].
      * rewrite IH. split.
        -- intros (after & ->). by exists after.
        -- intros (after & [= ->]). by exists after.
      * split; [done|]. intros (after & [= ? _]). done.
Qed.

Lemma includes_iff (path marker : string) :
  includes path marker = true ↔ HoldsMarker path marker.
Proof.
  unfold HoldsMarker. induction path as [|c path IH]; cbn [includes].
  - rewrite orb_false_r, prefix_iff. split.
    + intros (after & ->). by exists "", after.
    + intros ([|c before] & after & Heq); [|done]. by exists after.
  - rewrite orb_true_iff, prefix_iff, IH. split.
    + intros [(after & ->)|(before & after & ->)].
      * by exists "", after.
      * by exists (String c before), after.
    + intros ([|c' before] & after & Heq).
      * left. by exists after.
      * right. injection Heq as -> ->. by exists before, after.
Qed.

Lemma isTestFile_iff (sourceFile : SourceFile) :
  isTestFile sourceFile = true ↔ InTestFile sourceFile.
Proof.
  unfold isTestFile, InTestFile. by rewrite orb_true_iff, !includes_iff.
Qed.

Lemma Dead_unannotated_iff (checker : TypeChecker) (g : CallGraph)
    (d : Declaration) :
  ¬ Annotated (declNode d) →
  Dead checker g d ↔
  ¬ ExportedItself (declNode d) ∧ ¬ InTestFile (declFile d)
  ∧ (g !! qualifiedName checker d = None
     ∨ g !! qualifiedName checker d = Some ∅).
Proof.
  intros Hplain. unfold Dead, IsRoot.
  rewrite NoIncomingEdge_iff, isExported_iff, isTestFile_iff. split.
  - intros [Hroot Hedge]. split; [|split]; [| |done].
    + intros H. apply Hroot. by left.
    + intros H. apply Hroot. right. by left.
  - intros (Hexp & Htest & Hedge). split; [|done].
    intros [H|[H|H%hasDecorators_Annotated]]; done.
Qed.

Section ClassificationLaw.

Variable glob : string -> string -> list string.
Variable createProgram : list string -> Program.
Variable relative : string -> string -> string.

(** C1, as the code has it.  In a run over a non-empty file set the
    findings are those of a subsequence of the found declarations, and
    for every found declaration that carries no annotation: it is among
    the reported ones, and the pass pushes its finding when it visits it,
    if and only if its own modifiers do not hold the export keyword, its
    file is not a test file, and the call graph has no incoming edge for
    its qualified name (the key is absent, or its caller set is empty).
    An export marker on a container does not count, and nothing is said
    of declarations that carry annotations. *)
Theorem unannotated_dead_iff_own_export_test_file_or_edge (this : DeadCodeAnalyzer) :
  findFiles glob (repoPath this) filePatterns ≠ [] →
  (∃ reported,
      fst (analyze glob createProgram relative this)
      = findingOf relative (repoPath this) <$> reported
      ∧ reported `sublist_of` declarations (programOfRun glob createProgram this)
      ∧ ∀ d, d ∈ declarations (programOfRun glob createProgram this) →
             ¬ Annotated (declNode d) →
             (d ∈ reported
              ↔ ¬ ExportedItself (declNode d) ∧ ¬ InTestFile (declFile d)
                ∧ (graphOfRun glob createProgram this
                     !! qualifiedName
                          (getTypeChecker (programOfRun glob createProgram this)) d
                   = None
                   ∨ graphOfRun glob createProgram this
                       !! qualifiedName
                            (getTypeChecker (programOfRun glob createProgram this)) d
                     = Some ∅)))
  ∧ ∀ (d : Declaration) (fs : list DeadCodeFinding),
      ¬ Annotated (declNode d) →
      (findings
         (reportDeclaration relative
            (getTypeChecker (programOfRun glob createProgram this))
            (declFile d) (declNode d) (declSymbol d)
            (mkRun (buildCallGraph (programOfRun glob createProgram this) this) fs))
       = fs ++ [findingOf relative (repoPath this) d]
       ↔ ¬ ExportedItself (declNode d) ∧ ¬ InTestFile (declFile d)
         ∧ (graphOfRun glob createProgram this
              !! qualifiedName
                   (getTypeChecker (programOfRun glob createProgram this)) d
            = None
            ∨ graphOfRun glob createProgram this
                !! qualifiedName
                     (getTypeChecker (programOfRun glob createProgram this)) d
              = Some ∅))
      ∧ (findings
           (reportDeclaration relative
              (getTypeChecker (programOfRun glob createProgram this))
              (declFile d) (declNode d) (declSymbol d)
              (mkRun (buildCallGraph (programOfRun glob createProgram this) this) fs))
         = fs
         ∨ findings
             (reportDeclaration relative
                (getTypeChecker (programOfRun glob createProgram this))
                (declFile d) (declNode d) (declSymbol d)
                (mkRun (buildCallGraph (programOfRun glob createProgram this) this) fs))
           = fs ++ [findingOf relative (repoPath this) d]).
Proof.
  intros Hfiles.
  set (program := programOfRun glob createProgram this).
  set (checker := getTypeChecker program).
  set (g := graphOfRun glob createProgram this).
  split.
  - exists (filter (Dead checker g) (declarations program)).
    split; [|split].
    + rewrite (analyze_spec _ _ _ _ Hfiles). cbn [fst]. unfold deadFindings.
      by rewrite repoPath_buildCallGraph.
    + apply sublist_filter.
    + intros d Hd Hplain. rewrite list_elem_of_filter.
      rewrite (Dead_unannotated_iff checker g d Hplain). naive_solver.
  - intros d fs Hplain. rewrite reportDeclaration_spec. cbn [self findings].
    unfold deadFindings. rewrite repoPath_buildCallGraph.
    rewrite filter_cons, filter_nil. destruct d as [sf node symbol].
    cbn [declFile declNode declSymbol] in *.
    rewrite <- (Dead_unannotated_iff checker g (mkDeclaration sf node symbol))
      by done.
    fold program. fold checker.
    change (callGraph (buildCallGraph program this)) with g.
    case_decide as Hd; cbn.
    + split; [done|by right].
    + rewrite app_nil_r. split; [|by left]. split; [|done].
      intros Heq. apply (f_equal length) in Heq.
      rewrite length_app in Heq. cbn in Heq. lia.
Qed.

End ClassificationLaw.

Lemma unannotated_dead_iff_mixed :
  findFiles (Examples.globOf ["/repo/src/mixed.ts"]) "/repo" filePatterns ≠ []
  ∧ fst (Examples.runOn "/repo/src/mixed.ts" MoreExamples.mixedProgram)
    = [Examples.findingAt "src/mixed.ts" "dead" 3 3]
  ∧ ∃ reported,
      fst (Examples.runOn "/repo/src/mixed.ts" MoreExamples.mixedProgram)
      = findingOf Examples.relative "/repo" <$> reported
      ∧ reported `sublist_of` declarations MoreExamples.mixedProgram
      ∧ ∀ d, d ∈ declarations MoreExamples.mixedProgram →
             ¬ Annotated (declNode d) →
             (d ∈ reported
              ↔ ¬ ExportedItself (declNode d) ∧ ¬ InTestFile (declFile d)
                ∧ (callGraph (buildCallGraph MoreExamples.mixedProgram
                                Examples.analyzer)
                     !! qualifiedName Examples.checker d = None
                   ∨ callGraph (buildCallGraph MoreExamples.mixedProgram
                                  Examples.analyzer)
                       !! qualifiedName Examples.checker d = Some ∅)).
Proof.
  assert (Hfiles : findFiles (Examples.globOf ["/repo/src/mixed.ts"]) "/repo"
                     filePatterns ≠ []) by by vm_compute.
  split; [exact Hfiles|]. split; [by vm_compute|].
  pose proof (unannotated_dead_iff_own_export_test_file_or_edge
                (Examples.globOf ["/repo/src/mixed.ts"])
                (fun _ => MoreExamples.mixedProgram) Examples.relative
                Examples.analyzer Hfiles) as [Hrun _].
  exact Hrun.
Defined.

(** C1 as stated fails: the method [run] is a root of the specification,
    exported through its class; it is found, no edge enters its name, and
    the pass pushes its finding: the run reports it. *)
Lemma root_through_container_reported_counterexample :
  ExportMarked [Examples.serviceClass; Examples.serviceRoot] Examples.runMethod
  ∧ mkDeclaration Examples.serviceFile Examples.runMethod (mkSymbol 0 "run")
    ∈ declarations Examples.serviceProgram
  ∧ callGraph (buildCallGraph Examples.serviceProgram Examples.analyzer) !! "run"
    = None
  ∧ findings
      (reportDeclaration Examples.relative Examples.checker Examples.serviceFile
         Examples.runMethod (mkSymbol 0 "run")
         (mkRun (buildCallGraph Examples.serviceProgram Examples.analyzer) []))
    = [Examples.findingAt "src/service.ts" "run" 2 2]
  ∧ fst (Examples.runOn "/repo/src/service.ts" Examples.serviceProgram)
    = [Examples.findingAt "src/service.ts" "run" 2 2].
Proof.
  split; [|split; [|split; [|split]]].
  - right. exists Examples.serviceClass. split; [by left|reflexivity].
  - apply list_elem_of_In. vm_compute. left. reflexivity.
  - vm_compute. reflexivity.
  - vm_compute. reflexivity.
  - vm_compute. reflexivity.
Qed.

(** C4 fails on the trees the engine is given.  The method [list] of
    [class Api] carries the annotation [@Get()], held among its modifiers
    with no [decorators] property, as the compiler whose [HasModifiers]
    type the source names builds a decorated declaration; the check of
    line 67-70 reads the [decorators] property alone, so it does not see
    the annotation, and the run reports the method, which no edge
    enters. *)
Theorem annotated_method_reported :
  Annotated Examples.listMethod
  ∧ mkDeclaration Examples.apiFile Examples.listMethod (mkSymbol 0 "list")
    ∈ declarations Examples.apiProgram
  ∧ callGraph (buildCallGraph Examples.apiProgram Examples.analyzer) !! "list"
    = None
  ∧ hasDecorators Examples.listMethod = false
  ∧ fst (Examples.runOn "/repo/src/api.ts" Examples.apiProgram)
    = [Examples.findingAt "src/api.ts" "list" 2 2].
Proof.
  split; [|split; [|split; [|split]]].
  - right. exists [Examples.leaf Decorator 14 "@Get()"],
      (Examples.leaf Decorator 14 "@Get()").
    split; [reflexivity|]. split; [by left|reflexivity].
  - apply list_elem_of_In. vm_compute. left. reflexivity.
  - vm_compute. reflexivity.
  - reflexivity.
  - vm_compute. reflexivity.
Qed.
